(** * manifest-cache-scrapper: the fetch / filter / merge / cache pipeline

    A shallow embedding of [scrapper.go].  The source file holds three
    revisions of the program, one after the other:

    - lines 1-136 (package [scrapper]): the fetcher filters while it fetches
      ([fetchAndFilterManifestEntities]); modelled in module [V1];
    - lines 138-336 (package [main]): [Mode] is a plain [int] read from
      [directActivityModeType], the filter keeps mode 4, four dictionaries are
      merged and every record is marshalled to JSON before it is written;
      modelled in module [V2];
    - lines 338-521 (package [main]): [Mode] is a [*int] read from [mode], the
      filter keeps mode 3, five dictionaries are merged and the record itself
      is handed to the Redis client; modelled in module [V3].

    What the revisions share (the merge loop, the filter loop, the decoding of
    the manifest, the flush) is defined once, before the modules.  All
    definitions come first; the lemmas and theorems follow. *)

From Stdlib Require Import ZArith String Ascii.
From stdpp Require Import base option list strings gmap fin_maps.

(** ** Iteration order of [range]

    A Go [for k, v := range m] visits every entry of the map exactly once, in
    an order the language leaves open.  A [RangeOrder] is one such choice of
    order: every function below that ranges over a map takes it as an argument,
    and every theorem holds for all of them. *)

Record RangeOrder : Type := {
  range : ∀ V : Type, gmap string V → list (string * V);
  range_perm : ∀ (V : Type) (m : gmap string V), range V m ≡ₚ map_to_list m
}.
Arguments range _ {V} _.

Definition key_order : RangeOrder :=
  {| range := λ V m, map_to_list m;
     range_perm := λ V m, reflexivity (map_to_list m) |}.

Definition reverse_key_order : RangeOrder :=
  {| range := λ V m, reverse (map_to_list m);
     range_perm := λ V m, reverse_Permutation (map_to_list m) |}.

(** ** Merge stage: [flattenMaps] (lines 281-292 and 466-476) *)

Section Merge.
Context {V : Type} (o : RangeOrder).

(** The inner loop: [for key, value := range m { result[key] = value }]. *)
Definition range_assign (result : gmap string V) (m : gmap string V)
  : gmap string V :=
  foldl (λ result '(key, value), <[key := value]> result) result (range o m).

Definition flattenMaps (responses : list (gmap string V)) : gmap string V :=
  foldl range_assign ∅ responses.

End Merge.

(** ** Filter stage: the loop of [filterActivities]

    Lines 235-250 and 432-444 are the same loop; they differ in the field the
    mode is read from (a plain [int], or a [*int] that may be nil) and in the
    literal it is compared with (4, or 3).  [mode_of] reads the mode of a
    record ([None] for a nil pointer) and [target] is the literal.  The same
    loop is the second half of [fetchAndFilterManifestEntities] (lines
    93-103). *)

Section Filter.
Context {V : Type} (mode_of : V → option Z) (target : Z) (o : RangeOrder).

(** [data.Mode == nil || *data.Mode != target] *)
Definition skipped (data : V) : bool :=
  match mode_of data with
  | None => true
  | Some mode => negb (mode =? target)%Z
  end.

Definition filterByMode (manifestResponse : gmap string V) : gmap string V :=
  foldl (λ filteredManifest '(hash, data),
           if skipped data then filteredManifest
           else <[hash := data]> filteredManifest)
        ∅ (range o manifestResponse).

End Filter.

(** ** JSON values and [encoding/json]

    The program reads and writes JSON through Go's [encoding/json].  Payloads
    are modelled as JSON values, the text layer (white space, escapes, the
    digits of a number) stays below the model.  A number is either an integer
    literal or any other literal ([JFrac], kept as its text): only the former
    can be stored in a Go [int]. *)

#[local] Unset Elimination Schemes.
Inductive json : Type :=
| JNull
| JBool (b : bool)
| JInt (n : Z)
| JFrac (literal : string)
| JString (s : string)
| JArray (items : list json)
| JObject (members : list (string * json)).
#[local] Set Elimination Schemes.

(** A Go [int] on the 64-bit platforms the program is built for. *)
Definition int_min : Z := - 2 ^ 63.
Definition int_max : Z := 2 ^ 63 - 1.
Definition is_int (n : Z) : bool := (int_min <=? n)%Z && (n <=? int_max)%Z.

(** *** Matching an object key with a struct field

    [encoding/json] takes the field whose name is the key, and failing that
    the field whose name equals the key after case folding.  Folding maps the
    ASCII letters to upper case, and the two letters outside ASCII that fold
    into it: U+017F (long s, bytes 197 191) to [S] and U+212A (Kelvin sign,
    bytes 226 132 170) to [K]. *)

Definition is_byte (n : nat) (c : ascii) : bool := Nat.eqb (nat_of_ascii c) n.

Definition upper (c : ascii) : ascii :=
  let n := nat_of_ascii c in
  if Nat.leb 97 n && Nat.leb n 122 then ascii_of_nat (n - 32) else c.

Fixpoint foldName (s : string) : string :=
  match s with
  | EmptyString => EmptyString
  | String c rest =>
    match rest with
    | EmptyString => String (upper c) EmptyString
    | String c2 rest2 =>
      if is_byte 197 c && is_byte 191 c2 then String "S" (foldName rest2)
      else
        match rest2 with
        | EmptyString => String (upper c) (foldName rest)
        | String c3 rest3 =>
          if is_byte 226 c && is_byte 132 c2 && is_byte 170 c3
          then String "K" (foldName rest3)
          else String (upper c) (foldName rest)
        end
    end
  end.

Fixpoint find_exact {F : Type} (fields : list (string * F)) (key : string)
  : option F :=
  match fields with
  | [] => None
  | (name, f) :: rest =>
    if String.eqb name key then Some f else find_exact rest key
  end.

Fixpoint find_folded {F : Type} (fields : list (string * F)) (key : string)
  : option F :=
  match fields with
  | [] => None
  | (name, f) :: rest =>
    if String.eqb (foldName name) (foldName key) then Some f
    else find_folded rest key
  end.

Definition find_field {F : Type} (fields : list (string * F)) (key : string)
  : option F :=
  match find_exact fields key with
  | Some f => Some f
  | None => find_folded fields key
  end.

(** *** Decoding into a Go value

    [json.Unmarshal] stores a JSON value into an existing Go value, so every
    decoder takes the current value [cur].  [None] is a decoding error
    ([UnmarshalTypeError]); the callers in this program drop the partly
    filled value whenever there is one.  A JSON [null] leaves a string, bool,
    int or struct as it is and sets a pointer or a map to nil. *)

Definition decode_string (cur : string) (j : json) : option string :=
  match j with
  | JNull => Some cur
  | JString s => Some s
  | _ => None
  end.

Definition decode_bool (cur : bool) (j : json) : option bool :=
  match j with
  | JNull => Some cur
  | JBool b => Some b
  | _ => None
  end.

Definition decode_int (cur : Z) (j : json) : option Z :=
  match j with
  | JNull => Some cur
  | JInt n => if is_int n then Some n else None
  | _ => None
  end.

(** A [*int]: [None] is the nil pointer. *)
Definition decode_int_ptr (cur : option Z) (j : json) : option (option Z) :=
  match j with
  | JNull => Some None
  | JInt n => if is_int n then Some (Some n) else None
  | _ => None
  end.

(** A struct: the members of the object are stored one after the other, in
    the order of the payload, each into the field it matches; members that
    match no field are skipped. *)
Definition decode_struct {F T : Type} (fields : list (string * F))
    (store : T → F → json → option T) (cur : T) (j : json) : option T :=
  match j with
  | JNull => Some cur
  | JObject members =>
    foldl (λ acc '(key, value),
             match acc with
             | None => None
             | Some d =>
               match find_field fields key with
               | Some f => store d f value
               | None => Some d
               end
             end)
          (Some cur) members
  | _ => None
  end.

(** A [map[string]T]: every member is decoded into a fresh zero [T] and
    assigned under its key, so a repeated key keeps its last member. *)
Definition decode_map {T : Type} (zero : T) (decode : T → json → option T)
    (cur : gmap string T) (j : json) : option (gmap string T) :=
  match j with
  | JNull => Some ∅
  | JObject members =>
    foldl (λ acc '(key, value),
             match acc with
             | None => None
             | Some m =>
               match decode zero value with
               | Some elem => Some (<[key := elem]> m)
               | None => None
               end
             end)
          (Some cur) members
  | _ => None
  end.

(** *** Strings on the way out

    A Go string is a sequence of bytes.  [json.Marshal] writes a string as
    UTF-8 text: it reads the string rune by rune as [utf8.DecodeRuneInString]
    does, and every byte that does not start a well-formed rune is written as
    U+FFFD, the replacement character (bytes 239 191 189), after which it
    goes on with the next byte.  Escapes are of the text layer and are undone
    by the reader. *)

Definition byte_in (lo hi : nat) (c : ascii) : bool :=
  Nat.leb lo (nat_of_ascii c) && Nat.leb (nat_of_ascii c) hi.

(** The bounds of the second byte of a rune, by its first byte (the
    [acceptRanges] of package [utf8]). *)
Definition second_byte_ok (first second : ascii) : bool :=
  let n := nat_of_ascii first in
  if Nat.eqb n 224 then byte_in 160 191 second
  else if Nat.eqb n 237 then byte_in 128 159 second
  else if Nat.eqb n 240 then byte_in 144 191 second
  else if Nat.eqb n 244 then byte_in 128 143 second
  else byte_in 128 191 second.

(** The number of bytes of the well-formed rune that starts the string;
    [None] when the first byte starts none. *)
Definition rune_width (s : string) : option nat :=
  match s with
  | EmptyString => None
  | String b0 rest =>
    if byte_in 0 127 b0 then Some 1
    else if byte_in 194 223 b0 then
      match rest with
      | String b1 _ => if second_byte_ok b0 b1 then Some 2 else None
      | _ => None
      end
    else if byte_in 224 239 b0 then
      match rest with
      | String b1 (String b2 _) =>
        if second_byte_ok b0 b1 && byte_in 128 191 b2 then Some 3 else None
      | _ => None
      end
    else if byte_in 240 244 b0 then
      match rest with
      | String b1 (String b2 (String b3 _)) =>
        if second_byte_ok b0 b1 && byte_in 128 191 b2 && byte_in 128 191 b3
        then Some 4 else None
      | _ => None
      end
    else None
  end.

Definition replacement_char : string :=
  String (ascii_of_nat 239) (String (ascii_of_nat 191)
    (String (ascii_of_nat 189) EmptyString)).

(** [skip] counts the bytes still to copy of the rune being read. *)
Fixpoint coerce_from (skip : nat) (s : string) : string :=
  match s with
  | EmptyString => EmptyString
  | String b rest =>
    match skip with
    | S k => String b (coerce_from k rest)
    | O =>
      match rune_width s with
      | Some n => String b (coerce_from (n - 1) rest)
      | None => replacement_char +:+ coerce_from 0 rest
      end
    end
  end.

(** The string that [json.Marshal] writes for [s]. *)
Definition coerce_utf8 (s : string) : string := coerce_from 0 s.

Fixpoint valid_from (skip : nat) (s : string) : bool :=
  match s with
  | EmptyString => true
  | String b rest =>
    match skip with
    | S k => valid_from k rest
    | O =>
      match rune_width s with
      | Some n => valid_from (n - 1) rest
      | None => false
      end
    end
  end.

(** [utf8.ValidString]: the string is a sequence of well-formed runes. *)
Definition utf8_valid (s : string) : bool := valid_from 0 s.

(** ** [DisplayProperties] (lines 40-45, 177-182, 377-382) *)

Record DisplayProperties : Type := {
  Description : string;
  Name : string;
  Icon : string;
  HasIcon : bool
}.

Definition zero_DisplayProperties : DisplayProperties :=
  {| Description := EmptyString; Name := EmptyString; Icon := EmptyString;
     HasIcon := false |}.

Inductive DisplayProperties_field : Type :=
| F_description | F_name | F_icon | F_hasIcon.

Definition DisplayProperties_fields : list (string * DisplayProperties_field) :=
  [("description"%string, F_description); ("name"%string, F_name);
   ("icon"%string, F_icon); ("hasIcon"%string, F_hasIcon)].

Definition store_DisplayProperties (d : DisplayProperties)
    (f : DisplayProperties_field) (j : json) : option DisplayProperties :=
  match f with
  | F_description =>
    s ← decode_string (Description d) j;
    Some {| Description := s; Name := Name d; Icon := Icon d;
            HasIcon := HasIcon d |}
  | F_name =>
    s ← decode_string (Name d) j;
    Some {| Description := Description d; Name := s; Icon := Icon d;
            HasIcon := HasIcon d |}
  | F_icon =>
    s ← decode_string (Icon d) j;
    Some {| Description := Description d; Name := Name d; Icon := s;
            HasIcon := HasIcon d |}
  | F_hasIcon =>
    b ← decode_bool (HasIcon d) j;
    Some {| Description := Description d; Name := Name d; Icon := Icon d;
            HasIcon := b |}
  end.

Definition decode_DisplayProperties
  : DisplayProperties → json → option DisplayProperties :=
  decode_struct DisplayProperties_fields store_DisplayProperties.

(** [json.Marshal] of a [DisplayProperties]: the fields in declaration order. *)
Definition encode_DisplayProperties (d : DisplayProperties) : json :=
  JObject [("description"%string, JString (coerce_utf8 (Description d)));
           ("name"%string, JString (coerce_utf8 (Name d)));
           ("icon"%string, JString (coerce_utf8 (Icon d)));
           ("hasIcon"%string, JBool (HasIcon d))].

(** ** [Manifest] (lines 16-27, 153-164, 353-364) *)

Record En_t : Type := {
  DestinyActivityDefinition : string;
  DestinyClassDefinition : string;
  DestinyGenderDefinition : string;
  DestinyRaceDefinition : string
}.

Record JSONWorldComponentContentPaths_t : Type := { En : En_t }.

Record Response_t : Type := {
  JSONWorldComponentContentPaths : JSONWorldComponentContentPaths_t
}.

Record Manifest : Type := { Response : Response_t }.

Definition zero_En : En_t :=
  {| DestinyActivityDefinition := EmptyString;
     DestinyClassDefinition := EmptyString;
     DestinyGenderDefinition := EmptyString;
     DestinyRaceDefinition := EmptyString |}.

(** [Manifest{}] *)
Definition zero_Manifest : Manifest :=
  {| Response := {| JSONWorldComponentContentPaths := {| En := zero_En |} |} |}.

Inductive En_field : Type := F_activity | F_class | F_gender | F_race.

Definition En_fields : list (string * En_field) :=
  [("DestinyActivityDefinition"%string, F_activity);
   ("DestinyClassDefinition"%string, F_class);
   ("DestinyGenderDefinition"%string, F_gender);
   ("DestinyRaceDefinition"%string, F_race)].

Definition store_En (e : En_t) (f : En_field) (j : json) : option En_t :=
  match f with
  | F_activity =>
    s ← decode_string (DestinyActivityDefinition e) j;
    Some {| DestinyActivityDefinition := s;
            DestinyClassDefinition := DestinyClassDefinition e;
            DestinyGenderDefinition := DestinyGenderDefinition e;
            DestinyRaceDefinition := DestinyRaceDefinition e |}
  | F_class =>
    s ← decode_string (DestinyClassDefinition e) j;
    Some {| DestinyActivityDefinition := DestinyActivityDefinition e;
            DestinyClassDefinition := s;
            DestinyGenderDefinition := DestinyGenderDefinition e;
            DestinyRaceDefinition := DestinyRaceDefinition e |}
  | F_gender =>
    s ← decode_string (DestinyGenderDefinition e) j;
    Some {| DestinyActivityDefinition := DestinyActivityDefinition e;
            DestinyClassDefinition := DestinyClassDefinition e;
            DestinyGenderDefinition := s;
            DestinyRaceDefinition := DestinyRaceDefinition e |}
  | F_race =>
    s ← decode_string (DestinyRaceDefinition e) j;
    Some {| DestinyActivityDefinition := DestinyActivityDefinition e;
            DestinyClassDefinition := DestinyClassDefinition e;
            DestinyGenderDefinition := DestinyGenderDefinition e;
            DestinyRaceDefinition := s |}
  end.

Definition decode_En : En_t → json → option En_t :=
  decode_struct En_fields store_En.

Definition decode_Paths
  : JSONWorldComponentContentPaths_t → json
    → option JSONWorldComponentContentPaths_t :=
  decode_struct [("en"%string, tt)]
    (λ p _ j, e ← decode_En (En p) j; Some {| En := e |}).

Definition decode_Response : Response_t → json → option Response_t :=
  decode_struct [("jsonWorldComponentContentPaths"%string, tt)]
    (λ r _ j,
       p ← decode_Paths (JSONWorldComponentContentPaths r) j;
       Some {| JSONWorldComponentContentPaths := p |}).

Definition decode_Manifest : Manifest → json → option Manifest :=
  decode_struct [("Response"%string, tt)]
    (λ m _ j, r ← decode_Response (Response m) j; Some {| Response := r |}).

(** ** Errors and outcomes *)

(** The errors of the libraries, and what [fmt.Errorf] builds from them. *)
Inductive error : Type :=
| GetError          (* http.Get could not complete the request *)
| ReadAllError      (* io.ReadAll failed on the response body *)
| UnmarshalError    (* json.Unmarshal rejected the body *)
| MarshalError      (* json.Marshal rejected the value *)
| RedisError        (* a Redis command failed *)
| Errorf (format : string) (args : list string) (cause : error).

(** A Go result pair [(T, error)]. *)
Inductive result (A : Type) : Type :=
| Ok (a : A)
| Err (err : error).
Arguments Ok {A} a.
Arguments Err {A} err.

(** How a run of [main] ends. *)
Inductive exit : Type :=
| Finished
    (* main ran to its last statement *)
| ClearCacheFailed (err : error)
    (* fmt.Println("Error clearing cache: ", err); return *)
| Fatal (format : string) (cause : option error)
    (* log.Fatalf: the message is logged and the process exits with status 1 *)
| Panicked (format : string) (key : string).
    (* log.Panicf *)

(** A statement sequence that either goes on with a value or ends the run. *)
Inductive step (A : Type) : Type :=
| Next (a : A)
| Halt (e : exit).
Arguments Next {A} a.
Arguments Halt {A} e.

Definition step_bind {A B : Type} (s : step A) (k : A → step B) : step B :=
  match s with
  | Next a => k a
  | Halt e => Halt e
  end.

Notation "x ←ₛ s ; k" := (step_bind s (λ x, k))
  (at level 20, s at level 100, k at level 200, right associativity,
   only parsing).

(** [if err != nil { log.Fatalf(format, err) }] after a call. *)
Definition or_fatal {A : Type} (format : string) (r : result A) : step A :=
  match r with
  | Ok a => Next a
  | Err err => Halt (Fatal format (Some err))
  end.

(** ** The outside world

    The remote API and the Redis server are external.  A [World] fixes how
    they answer during one run: what a GET of a URL yields, whether FLUSHALL
    fails, and for which keys a SET fails. *)

Inductive http_reply : Type :=
| GetFails                       (* http.Get returns an error *)
| ReadFails                      (* io.ReadAll returns an error *)
| Body (payload : option json).  (* the body; [None] is not JSON text *)

Record World : Type := {
  http_get : string → http_reply;
  flush_fails : bool;
  set_fails : string → bool
}.

(** What a command did, as the server and the client see it. *)
Inductive event : Type :=
| Flushed (ok : bool)
| SetKey (key : string) (ok : bool).

(** The cache behind the client: its keyspace and the commands issued so
    far, oldest first. *)
Record Redis : Type := {
  store : gmap string json;
  history : list event
}.

(** [redis.NewClient(...)]: a fresh client of the server whose keyspace is
    [cache]; it has issued no command yet. *)
Definition NewClient (cache : gmap string json) : Redis :=
  {| store := cache; history := [] |}.

(** The value argument of [client.Set].  The client can put bytes on the wire;
    a struct that does not implement [encoding.BinaryMarshaler] is refused by
    the client itself and the command fails without reaching the server. *)
Inductive redis_arg : Type :=
| Bytes (payload : json)
| PlainStruct.

(** The [*redis.StatusCmd] a command returns: it carries the error, if any. *)
Record StatusCmd : Type := { cmd_err : option error }.

(** [client.FlushAll(ctx).Result()] *)
Definition FlushAll (w : World) (client : Redis) : option error * Redis :=
  if flush_fails w
  then (Some RedisError,
        {| store := store client;
           history := history client ++ [Flushed false] |})
  else (None, {| store := ∅; history := history client ++ [Flushed true] |}).

(** [client.Set(ctx, key, value, 0)]: the returned pointer is never nil. *)
Definition Set_ (w : World) (client : Redis) (key : string) (value : redis_arg)
  : option StatusCmd * Redis :=
  match value with
  | Bytes payload =>
    if set_fails w key
    then (Some {| cmd_err := Some RedisError |},
          {| store := store client;
             history := history client ++ [SetKey key false] |})
    else (Some {| cmd_err := None |},
          {| store := <[key := payload]> (store client);
             history := history client ++ [SetKey key true] |})
  | PlainStruct =>
    (Some {| cmd_err := Some RedisError |},
     {| store := store client;
        history := history client ++ [SetKey key false] |})
  end.

(** [clearCache] (lines 252-260 and 446-454) *)
Definition clearCache (w : World) (client : Redis) : option error * Redis :=
  let '(err, client) := FlushAll w client in
  match err with
  | Some err =>
    (Some (Errorf "Failed to flush the Redis cache: %w" [] err), client)
  | None => (None, client)
  end.

(** [fetchManifest] (lines 50-71, 187-208, 387-408).  Every failure is
    logged with [log.Fatalf], which ends the process, so the [return] that
    follows is never reached.  [unmarshal_msg] is the one text that differs
    between the revisions. *)
Definition fetchManifest (unmarshal_msg : string) (w : World) (url : string)
  : step (result Manifest) :=
  match http_get w url with
  | GetFails => Halt (Fatal "Failed to call the Bnet manifest: %v" (Some GetError))
  | ReadFails =>
    Halt (Fatal "Failed to read body from Bnet response: %v" (Some ReadAllError))
  | Body None => Halt (Fatal unmarshal_msg (Some UnmarshalError))
  | Body (Some payload) =>
    match decode_Manifest zero_Manifest payload with
    | None => Halt (Fatal unmarshal_msg (Some UnmarshalError))
    | Some manifest => Next (Ok manifest)
    end
  end.

(** The code shared by [fetchManifestEntities] (lines 213-230, 413-430) and
    the first half of [fetchAndFilterManifestEntities] (lines 76-91): GET,
    read, unmarshal into a [ManifestResponse]. *)
Definition fetch_dictionary {T : Type} (zero : T)
    (decode : T → json → option T) (w : World) (url : string)
  : result (gmap string T) :=
  match http_get w url with
  | GetFails => Err (Errorf "failed to make request: %w" [] GetError)
  | ReadFails => Err (Errorf "failed to read response: %w" [] ReadAllError)
  | Body None => Err (Errorf "failed to unmarshal JSON: %w" [] UnmarshalError)
  | Body (Some payload) =>
    match decode_map zero decode ∅ payload with
    | None => Err (Errorf "failed to unmarshal JSON: %w" [] UnmarshalError)
    | Some manifest => Ok manifest
    end
  end.

(** ** Revision of lines 1-136: fetch and filter in one function *)

Module V1.

(** [ManifestObject] (lines 31-38, and again lines 368-375): [Mode] is a
    [*int], [None] being the nil pointer. *)
Record ManifestObject : Type := {
  Mode : option Z;
  DisplayProperties' : DisplayProperties;
  OriginalDisplayProperties : DisplayProperties;
  ReleaseIcon : string;
  ReleaseTime : Z
}.

Definition zero_ManifestObject : ManifestObject :=
  {| Mode := None;
     DisplayProperties' := zero_DisplayProperties;
     OriginalDisplayProperties := zero_DisplayProperties;
     ReleaseIcon := EmptyString;
     ReleaseTime := 0 |}.

Inductive ManifestObject_field : Type :=
| F_mode | F_displayProperties | F_originalDisplayProperties
| F_releaseIcon | F_releaseTime.

Definition ManifestObject_fields : list (string * ManifestObject_field) :=
  [("mode"%string, F_mode);
   ("displayProperties"%string, F_displayProperties);
   ("originalDisplayProperties"%string, F_originalDisplayProperties);
   ("releaseIcon"%string, F_releaseIcon);
   ("releaseTime"%string, F_releaseTime)].

Definition store_ManifestObject (d : ManifestObject)
    (f : ManifestObject_field) (j : json) : option ManifestObject :=
  match f with
  | F_mode =>
    m ← decode_int_ptr (Mode d) j;
    Some {| Mode := m; DisplayProperties' := DisplayProperties' d;
            OriginalDisplayProperties := OriginalDisplayProperties d;
            ReleaseIcon := ReleaseIcon d; ReleaseTime := ReleaseTime d |}
  | F_displayProperties =>
    p ← decode_DisplayProperties (DisplayProperties' d) j;
    Some {| Mode := Mode d; DisplayProperties' := p;
            OriginalDisplayProperties := OriginalDisplayProperties d;
            ReleaseIcon := ReleaseIcon d; ReleaseTime := ReleaseTime d |}
  | F_originalDisplayProperties =>
    p ← decode_DisplayProperties (OriginalDisplayProperties d) j;
    Some {| Mode := Mode d; DisplayProperties' := DisplayProperties' d;
            OriginalDisplayProperties := p;
            ReleaseIcon := ReleaseIcon d; ReleaseTime := ReleaseTime d |}
  | F_releaseIcon =>
    s ← decode_string (ReleaseIcon d) j;
    Some {| Mode := Mode d; DisplayProperties' := DisplayProperties' d;
            OriginalDisplayProperties := OriginalDisplayProperties d;
            ReleaseIcon := s; ReleaseTime := ReleaseTime d |}
  | F_releaseTime =>
    n ← decode_int (ReleaseTime d) j;
    Some {| Mode := Mode d; DisplayProperties' := DisplayProperties' d;
            OriginalDisplayProperties := OriginalDisplayProperties d;
            ReleaseIcon := ReleaseIcon d; ReleaseTime := n |}
  end.

Definition decode_ManifestObject
  : ManifestObject → json → option ManifestObject :=
  decode_struct ManifestObject_fields store_ManifestObject.

(** [json.Marshal] of a [ManifestObject]: [mode] carries [omitempty], so a
    nil [Mode] leaves the member out. *)
Definition encode_ManifestObject (d : ManifestObject) : json :=
  JObject
    (match Mode d with
     | Some mode => [("mode"%string, JInt mode)]
     | None => []
     end ++
     [("displayProperties"%string,
       encode_DisplayProperties (DisplayProperties' d));
      ("originalDisplayProperties"%string,
       encode_DisplayProperties (OriginalDisplayProperties d));
      ("releaseIcon"%string, JString (coerce_utf8 (ReleaseIcon d)));
      ("releaseTime"%string, JInt (ReleaseTime d))]).

Abbreviation ManifestResponse := (gmap string ManifestObject).

(** [fetchAndFilterManifestEntities] (lines 76-106) *)
Definition fetchAndFilterManifestEntities (o : RangeOrder) (w : World)
    (url : string) : result ManifestResponse :=
  match fetch_dictionary zero_ManifestObject decode_ManifestObject w url with
  | Err err => Err err
  | Ok manifest => Ok (filterByMode Mode 3 o manifest)
  end.

End V1.

(** ** Revision of lines 138-336: mode 4, four dictionaries, JSON payloads *)

Module V2.

Definition baseUrl : string := "https://www.bungie.net".
Definition manifestPath : string := "/Platform/Destiny2/Manifest".

(** [ManifestObject] (lines 168-175): [Mode] is an [int]. *)
Record ManifestObject : Type := {
  Mode : Z;
  DisplayProperties' : DisplayProperties;
  OriginalDisplayProperties : DisplayProperties;
  ReleaseIcon : string;
  ReleaseTime : Z
}.

Definition zero_ManifestObject : ManifestObject :=
  {| Mode := 0;
     DisplayProperties' := zero_DisplayProperties;
     OriginalDisplayProperties := zero_DisplayProperties;
     ReleaseIcon := EmptyString;
     ReleaseTime := 0 |}.

Inductive ManifestObject_field : Type :=
| F_directActivityModeType | F_displayProperties
| F_originalDisplayProperties | F_releaseIcon | F_releaseTime.

Definition ManifestObject_fields : list (string * ManifestObject_field) :=
  [("directActivityModeType"%string, F_directActivityModeType);
   ("displayProperties"%string, F_displayProperties);
   ("originalDisplayProperties"%string, F_originalDisplayProperties);
   ("releaseIcon"%string, F_releaseIcon);
   ("releaseTime"%string, F_releaseTime)].

Definition store_ManifestObject (d : ManifestObject)
    (f : ManifestObject_field) (j : json) : option ManifestObject :=
  match f with
  | F_directActivityModeType =>
    m ← decode_int (Mode d) j;
    Some {| Mode := m; DisplayProperties' := DisplayProperties' d;
            OriginalDisplayProperties := OriginalDisplayProperties d;
            ReleaseIcon := ReleaseIcon d; ReleaseTime := ReleaseTime d |}
  | F_displayProperties =>
    p ← decode_DisplayProperties (DisplayProperties' d) j;
    Some {| Mode := Mode d; DisplayProperties' := p;
            OriginalDisplayProperties := OriginalDisplayProperties d;
            ReleaseIcon := ReleaseIcon d; ReleaseTime := ReleaseTime d |}
  | F_originalDisplayProperties =>
    p ← decode_DisplayProperties (OriginalDisplayProperties d) j;
    Some {| Mode := Mode d; DisplayProperties' := DisplayProperties' d;
            OriginalDisplayProperties := p;
            ReleaseIcon := ReleaseIcon d; ReleaseTime := ReleaseTime d |}
  | F_releaseIcon =>
    s ← decode_string (ReleaseIcon d) j;
    Some {| Mode := Mode d; DisplayProperties' := DisplayProperties' d;
            OriginalDisplayProperties := OriginalDisplayProperties d;
            ReleaseIcon := s; ReleaseTime := ReleaseTime d |}
  | F_releaseTime =>
    n ← decode_int (ReleaseTime d) j;
    Some {| Mode := Mode d; DisplayProperties' := DisplayProperties' d;
            OriginalDisplayProperties := OriginalDisplayProperties d;
            ReleaseIcon := ReleaseIcon d; ReleaseTime := n |}
  end.

Definition decode_ManifestObject
  : ManifestObject → json → option ManifestObject :=
  decode_struct ManifestObject_fields store_ManifestObject.

(** [json.Unmarshal(payload, &record)] into a fresh record: what reading a
    cache entry back amounts to. *)
Definition Unmarshal (payload : json) : result ManifestObject :=
  match decode_ManifestObject zero_ManifestObject payload with
  | Some d => Ok d
  | None => Err UnmarshalError
  end.

(** The JSON object of a record: the fields in declaration order, each under
    the name of its tag. *)
Definition encode_ManifestObject (value : ManifestObject) : json :=
  JObject
    [("directActivityModeType"%string, JInt (Mode value));
     ("displayProperties"%string,
      encode_DisplayProperties (DisplayProperties' value));
     ("originalDisplayProperties"%string,
      encode_DisplayProperties (OriginalDisplayProperties value));
     ("releaseIcon"%string, JString (coerce_utf8 (ReleaseIcon value)));
     ("releaseTime"%string, JInt (ReleaseTime value))].

(** [json.Marshal(value)]: no field of this struct has a type that
    [json.Marshal] refuses, so the error is always nil. *)
Definition Marshal (value : ManifestObject) : result json :=
  Ok (encode_ManifestObject value).

Abbreviation ManifestResponse := (gmap string ManifestObject).

(** [fetchManifestEntities] (lines 213-230) *)
Definition fetchManifestEntities (w : World) (url : string)
  : result ManifestResponse :=
  fetch_dictionary zero_ManifestObject decode_ManifestObject w url.

(** [filterActivities] (lines 235-250): [if data.Mode != 4 { continue }] *)
Definition filterActivities (o : RangeOrder)
    (manifestResponse : ManifestResponse) : ManifestResponse :=
  filterByMode (λ data, Some (Mode data)) 4 o manifestResponse.

(** The loop of [saveToRedis] over the entries in the order of the range.
    What [client.Set] returns is dropped. *)
Fixpoint save_entries (w : World) (client : Redis)
    (entries : list (string * ManifestObject)) : option error * Redis :=
  match entries with
  | [] => (None, client)
  | (key, value) :: rest =>
    match Marshal value with
    | Err err =>
      (Some (Errorf
               "Failed to serialize data to JSON for key [%s] and value [%v]. Error: %v"
               [key] err),
       client)
    | Ok jsonValue =>
      let '(_, client) := Set_ w client key (Bytes jsonValue) in
      save_entries w client rest
    end
  end.

(** [saveToRedis] (lines 265-279) *)
Definition saveToRedis (o : RangeOrder) (w : World) (client : Redis)
    (data : ManifestResponse) : option error * Redis :=
  save_entries w client (range o data).

Definition raceUrl (manifest : Manifest) : string :=
  baseUrl +:+
  DestinyRaceDefinition (En (JSONWorldComponentContentPaths (Response manifest))).
Definition classUrl (manifest : Manifest) : string :=
  baseUrl +:+
  DestinyClassDefinition (En (JSONWorldComponentContentPaths (Response manifest))).
Definition genderUrl (manifest : Manifest) : string :=
  baseUrl +:+
  DestinyGenderDefinition (En (JSONWorldComponentContentPaths (Response manifest))).
Definition activityUrl (manifest : Manifest) : string :=
  baseUrl +:+
  DestinyActivityDefinition (En (JSONWorldComponentContentPaths (Response manifest))).

(** Lines 308-333 of [main]: resolve the manifest, fetch the four
    dictionaries, filter, merge.  The value is [data], the dictionary handed
    to [saveToRedis]. *)
Definition fetch_and_merge (o : RangeOrder) (w : World)
  : step ManifestResponse :=
  r ←ₛ fetchManifest "Failed to unmarshal JSON while fetching manifest: %v"
         w (baseUrl +:+ manifestPath);
  manifest ←ₛ or_fatal "%v" r;
  raceInfo ←ₛ or_fatal "Error fetching race entities: %v"
                (fetchManifestEntities w (raceUrl manifest));
  classInfo ←ₛ or_fatal "Error fetching class entities: %v"
                 (fetchManifestEntities w (classUrl manifest));
  genderInfo ←ₛ or_fatal "Error fetching gender entities: %v"
                  (fetchManifestEntities w (genderUrl manifest));
  activityInfo ←ₛ or_fatal "Error fetching activity entities: %v"
                    (fetchManifestEntities w (activityUrl manifest));
  let filteredActivities := filterActivities o activityInfo in
  let data := flattenMaps o [raceInfo; classInfo; genderInfo; filteredActivities] in
  Next data.

(** [main] (lines 294-336).  The error [saveToRedis] returns is dropped. *)
Definition main (o : RangeOrder) (w : World) (cache : gmap string json)
  : exit * Redis :=
  let client := NewClient cache in
  let '(err, client) := clearCache w client in
  match err with
  | Some err => (ClearCacheFailed err, client)
  | None =>
    match fetch_and_merge o w with
    | Halt e => (e, client)
    | Next data =>
      let '(_, client) := saveToRedis o w client data in
      (Finished, client)
    end
  end.

End V2.

(** ** Revision of lines 338-521: mode 3, five dictionaries, raw records *)

Module V3.

Definition baseUrl : string := "https://www.bungie.net/Platform/".
Definition manifestPath : string := "Destiny2/Manifest".

(** [ManifestObject] (lines 368-375) is the struct of lines 31-38. *)
Abbreviation ManifestObject := V1.ManifestObject.
Abbreviation ManifestResponse := (gmap string V1.ManifestObject).

(** [fetchManifestEntities] (lines 413-430) *)
Definition fetchManifestEntities (w : World) (url : string)
  : result ManifestResponse :=
  fetch_dictionary V1.zero_ManifestObject V1.decode_ManifestObject w url.

(** [filterActivities] (lines 432-444):
    [if data.Mode == nil || *data.Mode != 3 { continue }] *)
Definition filterActivities (o : RangeOrder)
    (manifestResponse : ManifestResponse) : ManifestResponse :=
  filterByMode V1.Mode 3 o manifestResponse.

(** The loop of [saveToRedis].  [err] is bound to the [*StatusCmd] that
    [client.Set] returns, and it is that pointer which is compared with nil. *)
Fixpoint save_entries (w : World) (client : Redis)
    (entries : list (string * ManifestObject)) : step (option error) * Redis :=
  match entries with
  | [] => (Next None, client)
  | (key, value) :: rest =>
    let '(err, client) := Set_ w client key PlainStruct in
    match err with
    | Some _ =>
      (Halt (Panicked
               "Something happened when saving to Redis key [%s] and value [%v]"
               key),
       client)
    | None => save_entries w client rest
    end
  end.

(** [saveToRedis] (lines 456-464) *)
Definition saveToRedis (o : RangeOrder) (w : World) (client : Redis)
    (data : ManifestResponse) : step (option error) * Redis :=
  save_entries w client (range o data).

Definition raceUrl (manifest : Manifest) : string :=
  baseUrl +:+
  DestinyRaceDefinition (En (JSONWorldComponentContentPaths (Response manifest))).
Definition classUrl (manifest : Manifest) : string :=
  baseUrl +:+
  DestinyClassDefinition (En (JSONWorldComponentContentPaths (Response manifest))).
Definition genderUrl (manifest : Manifest) : string :=
  baseUrl +:+
  DestinyGenderDefinition (En (JSONWorldComponentContentPaths (Response manifest))).
Definition activityUrl (manifest : Manifest) : string :=
  baseUrl +:+
  DestinyActivityDefinition (En (JSONWorldComponentContentPaths (Response manifest))).

(** Lines 492-517 of [main]; the value is [data]. *)
Definition fetch_and_merge (o : RangeOrder) (w : World)
  : step ManifestResponse :=
  r ←ₛ fetchManifest "Failed to unmarshal JSON: %v" w (baseUrl +:+ manifestPath);
  manifest ←ₛ or_fatal "%v" r;
  raceInfo ←ₛ or_fatal "Error fetching race entities"
                (fetchManifestEntities w (raceUrl manifest));
  classInfo ←ₛ or_fatal "Error fetching class entities"
                 (fetchManifestEntities w (classUrl manifest));
  genderInfo ←ₛ or_fatal "Error fetching gender entities"
                  (fetchManifestEntities w (genderUrl manifest));
  activityInfo ←ₛ or_fatal "Error fetching activity entities"
                    (fetchManifestEntities w (activityUrl manifest));
  let filteredActivities := filterActivities o activityInfo in
  let data :=
    flattenMaps o
      [raceInfo; classInfo; genderInfo; activityInfo; filteredActivities] in
  Next data.

(** [main] (lines 478-521) *)
Definition main (o : RangeOrder) (w : World) (cache : gmap string json)
  : exit * Redis :=
  let client := NewClient cache in
  let '(err, client) := clearCache w client in
  match err with
  | Some err => (ClearCacheFailed err, client)
  | None =>
    match fetch_and_merge o w with
    | Halt e => (e, client)
    | Next data =>
      match saveToRedis o w client data with
      | (Halt e, client) => (e, client)
      | (Next _, client) => (Finished, client)
      end
    end
  end.

End V3.

(** ** Sample inputs *)

Definition human : V1.ManifestObject :=
  {| V1.Mode := None;
     V1.DisplayProperties' :=
       {| Description := "Humans"; Name := "Human"; Icon := "/h.png";
          HasIcon := true |};
     V1.OriginalDisplayProperties := zero_DisplayProperties;
     V1.ReleaseIcon := EmptyString;
     V1.ReleaseTime := 0 |}.

Definition titan : V1.ManifestObject :=
  {| V1.Mode := Some 5%Z;
     V1.DisplayProperties' :=
       {| Description := "Titans"; Name := "Titan"; Icon := "/t.png";
          HasIcon := true |};
     V1.OriginalDisplayProperties := zero_DisplayProperties;
     V1.ReleaseIcon := EmptyString;
     V1.ReleaseTime := 0 |}.

Definition strike : V1.ManifestObject :=
  {| V1.Mode := Some 3%Z;
     V1.DisplayProperties' :=
       {| Description := "A strike"; Name := "Strike"; Icon := EmptyString;
          HasIcon := false |};
     V1.OriginalDisplayProperties := zero_DisplayProperties;
     V1.ReleaseIcon := "/s.png";
     V1.ReleaseTime := 1700000000 |}.

Definition raid : V2.ManifestObject :=
  {| V2.Mode := 4;
     V2.DisplayProperties' :=
       {| Description := "A raid"; Name := "Raid"; Icon := "/r.png";
          HasIcon := true |};
     V2.OriginalDisplayProperties := zero_DisplayProperties;
     V2.ReleaseIcon := "/r.png";
     V2.ReleaseTime := 1700000000 |}.

(** A manifest body whose four paths are [/race], [/class], [/gender] and
    [/activity]. *)
Definition manifest_body : json :=
  JObject
    [("Response"%string,
      JObject
        [("jsonWorldComponentContentPaths"%string,
          JObject
            [("en"%string,
              JObject
                [("DestinyActivityDefinition"%string, JString "/activity");
                 ("DestinyClassDefinition"%string, JString "/class");
                 ("DestinyGenderDefinition"%string, JString "/gender");
                 ("DestinyRaceDefinition"%string, JString "/race")])])])].

(** An entity payload with one entry, ["9"], that has no [mode] member. *)
Definition modeless_body : json := JObject [("9"%string, JObject [])].

(** A remote that serves [manifest_body] at the manifest URL of the revision
    of lines 338-521, [modeless_body] as the activity dictionary and empty
    dictionaries elsewhere; the store never fails. *)
Definition modeless_world : World :=
  {| http_get := λ url,
       if String.eqb url "https://www.bungie.net/Platform/Destiny2/Manifest"
       then Body (Some manifest_body)
       else if String.eqb url "https://www.bungie.net/Platform//activity"
       then Body (Some modeless_body)
       else Body (Some (JObject []));
     flush_fails := false;
     set_fails := λ _, false |}.

(** A remote for the revision of lines 138-336 whose race dictionary has one
    entry, ["1"]; the store refuses the SET of that key. *)
Definition refusing_world : World :=
  {| http_get := λ url,
       if String.eqb url "https://www.bungie.net/Platform/Destiny2/Manifest"
       then Body (Some manifest_body)
       else if String.eqb url "https://www.bungie.net/race"
       then Body (Some (JObject [("1"%string, JObject [])]))
       else Body (Some (JObject []));
     flush_fails := false;
     set_fails := λ key, String.eqb key "1" |}.

(** The same remote in front of a store whose FLUSHALL fails. *)
Definition unflushable_world : World :=
  {| http_get := http_get refusing_world;
     flush_fails := true;
     set_fails := λ _, false |}.

(** A world that answers every GET with the same reply. *)
Definition constant_world (reply : http_reply) : World :=
  {| http_get := λ _, reply; flush_fails := false; set_fails := λ _, false |}.

(** A manifest with the given race path and no other path. *)
Definition manifest_with_race (path : string) : Manifest :=
  {| Response :=
       {| JSONWorldComponentContentPaths :=
            {| En :=
                 {| DestinyActivityDefinition := EmptyString;
                    DestinyClassDefinition := EmptyString;
                    DestinyGenderDefinition := EmptyString;
                    DestinyRaceDefinition := path |} |} |} |}.

(** ** Predicates of the statements *)

(** Every SET in a command history comes after a FLUSHALL that succeeded. *)
Definition writes_follow_flush (h : list event) : Prop :=
  ∀ pre key ok post, h = pre ++ SetKey key ok :: post → Flushed true ∈ pre.

Definition is_set (e : event) : Prop :=
  match e with
  | SetKey _ _ => True
  | Flushed _ => False
  end.

(** The fields of a record hold values a Go [int] can hold. *)
Definition ints_in_range (d : V2.ManifestObject) : Prop :=
  is_int (V2.Mode d) = true ∧ is_int (V2.ReleaseTime d) = true.

(** The strings of a display-property block, and of a record, are valid
    UTF-8. *)
Definition DisplayProperties_utf8 (d : DisplayProperties) : Prop :=
  utf8_valid (Description d) = true ∧ utf8_valid (Name d) = true ∧
  utf8_valid (Icon d) = true.

Definition strings_utf8 (d : V2.ManifestObject) : Prop :=
  DisplayProperties_utf8 (V2.DisplayProperties' d) ∧
  DisplayProperties_utf8 (V2.OriginalDisplayProperties d) ∧
  utf8_valid (V2.ReleaseIcon d) = true.

(** A record whose name is the single byte 255, which starts no rune. *)
Definition garbled : V2.ManifestObject :=
  {| V2.Mode := 4;
     V2.DisplayProperties' :=
       {| Description := EmptyString;
          Name := String (ascii_of_nat 255) EmptyString;
          Icon := EmptyString; HasIcon := false |};
     V2.OriginalDisplayProperties := zero_DisplayProperties;
     V2.ReleaseIcon := EmptyString;
     V2.ReleaseTime := 0 |}.

(** What comes back for [garbled]: the name is the replacement character. *)
Definition garbled_read_back : V2.ManifestObject :=
  {| V2.Mode := 4;
     V2.DisplayProperties' :=
       {| Description := EmptyString;
          Name := replacement_char;
          Icon := EmptyString; HasIcon := false |};
     V2.OriginalDisplayProperties := zero_DisplayProperties;
     V2.ReleaseIcon := EmptyString;
     V2.ReleaseTime := 0 |}.

(** The SET that the loop of lines 267-276 issues for one entry, as the
    history records it. *)
Definition set_event (w : World) (entry : string * V2.ManifestObject) : event :=
  SetKey entry.1 (negb (set_fails w entry.1)).

(** A manifest body of the expected shape, with the four paths given. *)
Definition manifest_doc (activity class gender race : string) : json :=
  JObject
    [("Response"%string,
      JObject
        [("jsonWorldComponentContentPaths"%string,
          JObject
            [("en"%string,
              JObject
                [("DestinyActivityDefinition"%string, JString activity);
                 ("DestinyClassDefinition"%string, JString class);
                 ("DestinyGenderDefinition"%string, JString gender);
                 ("DestinyRaceDefinition"%string, JString race)])])])].

Definition manifest_of (activity class gender race : string) : Manifest :=
  {| Response :=
       {| JSONWorldComponentContentPaths :=
            {| En :=
                 {| DestinyActivityDefinition := activity;
                    DestinyClassDefinition := class;
                    DestinyGenderDefinition := gender;
                    DestinyRaceDefinition := race |} |} |} |}.

(** An entity payload whose first entry is ill-typed: its mode is a string. *)
Definition ill_typed_body : json :=
  JObject [("1"%string, JObject [("directActivityModeType"%string, JString "4")]);
           ("2"%string, JObject [])].

(** A payload that binds ["1"] twice. *)
Definition repeated_key_body : json :=
  JObject [("1"%string, JObject [("directActivityModeType"%string, JInt 4)]);
           ("1"%string, JObject [("directActivityModeType"%string, JInt 7)])].

(** The remote of [refusing_world] in front of a store that never fails. *)
Definition working_world : World :=
  {| http_get := http_get refusing_world;
     flush_fails := false;
     set_fails := λ _, false |}.

(** * Properties of the merge loop *)

Section MergeFacts.
Context {V : Type}.
Implicit Types (m result : gmap string V) (l : list (string * V)).

Lemma foldl_assign_union l result :
  NoDup l.*1 →
  foldl (λ result '(key, value), <[key := value]> result) result l
  = list_to_map l ∪ result.
Proof.
  revert result. induction l as [|[k v] l IH]; intros result Hnd.
  - simpl. by rewrite (left_id_L ∅ (∪)).
  - rewrite fmap_cons in Hnd. apply NoDup_cons in Hnd as [Hk Hnd].
    simpl. rewrite IH by done.
    rewrite <- insert_union_l. symmetry. apply insert_union_r.
    by apply not_elem_of_list_to_map_1.
Qed.

Lemma range_keys_NoDup (o : RangeOrder) m : NoDup (range o m).*1.
Proof. rewrite (range_perm o V m). apply NoDup_fst_map_to_list. Qed.

Lemma range_to_map (o : RangeOrder) m : list_to_map (range o m) = m.
Proof.
  rewrite <- (list_to_map_to_list m) at 2.
  apply list_to_map_proper; [apply range_keys_NoDup | apply range_perm].
Qed.

(** One pass of the inner loop is a union in which the ranged map wins. *)
Lemma range_assign_union (o : RangeOrder) result m :
  range_assign o result m = m ∪ result.
Proof.
  unfold range_assign. rewrite foldl_assign_union by apply range_keys_NoDup.
  by rewrite range_to_map.
Qed.

Lemma flattenMaps_nil (o : RangeOrder) : flattenMaps (V:=V) o [] = ∅.
Proof. done. Qed.

Lemma flattenMaps_snoc (o : RangeOrder) (ms : list (gmap string V)) m :
  flattenMaps o (ms ++ [m]) = m ∪ flattenMaps o ms.
Proof.
  unfold flattenMaps. rewrite foldl_app. simpl. apply range_assign_union.
Qed.

(** The merge does not depend on the order in which the maps are ranged. *)
Lemma flattenMaps_order (o o' : RangeOrder) (ms : list (gmap string V)) :
  flattenMaps o ms = flattenMaps o' ms.
Proof.
  induction ms as [|m ms IH] using rev_ind; [done|].
  by rewrite !flattenMaps_snoc, IH.
Qed.

Lemma flattenMaps_lookup_last (o : RangeOrder) pre m post k v :
  m !! k = Some v →
  (∀ m', m' ∈ post → m' !! k = None) →
  flattenMaps o (pre ++ m :: post) !! k = Some v.
Proof.
  induction post as [|m' post IH] using rev_ind; intros Hm Hpost.
  - rewrite flattenMaps_snoc. by apply lookup_union_Some_l.
  - replace (pre ++ m :: post ++ [m']) with ((pre ++ m :: post) ++ [m'])
      by (by rewrite <- app_assoc).
    rewrite flattenMaps_snoc, lookup_union_r.
    + apply IH; [done|]. intros m'' Hin. apply Hpost.
      apply elem_of_app. by left.
    + apply Hpost. apply elem_of_app. right. apply list_elem_of_here.
Qed.

Lemma flattenMaps_dom (o : RangeOrder) (ms : list (gmap string V)) :
  dom (flattenMaps o ms) = ⋃ (dom <$> ms).
Proof.
  induction ms as [|m ms IH] using rev_ind.
  - by rewrite flattenMaps_nil, dom_empty_L.
  - rewrite flattenMaps_snoc, dom_union_L, IH, fmap_app, union_list_app_L.
    simpl. rewrite (right_id_L ∅ (∪)). apply (comm_L (∪)).
Qed.

End MergeFacts.

(** * Properties of the filter loop *)

Section FilterFacts.
Context {V : Type} (mode_of : V → option Z) (target : Z).
Implicit Types (D : gmap string V) (l : list (string * V)).

Lemma skipped_false (data : V) :
  skipped mode_of target data = false ↔ mode_of data = Some target.
Proof.
  unfold skipped. destruct (mode_of data) as [mode|]; [|done].
  rewrite negb_false_iff, Z.eqb_eq. split; congruence.
Qed.


Lemma foldl_keep_lookup l (acc : gmap string V) k :
  NoDup l.*1 →
  foldl (λ filteredManifest '(hash, data),
           if skipped mode_of target data then filteredManifest
           else <[hash := data]> filteredManifest) acc l !! k
  = match (list_to_map l : gmap string V) !! k with
    | Some data => if skipped mode_of target data then acc !! k else Some data
    | None => acc !! k
    end.
Proof.
  revert acc. induction l as [|[k0 v0] l IH]; intros acc Hnd.
  - simpl. by rewrite lookup_empty.
  - rewrite fmap_cons in Hnd. apply NoDup_cons in Hnd as [Hk Hnd].
    simpl in *. rewrite IH by done. destruct (decide (k0 = k)) as [->|Hne].
    + rewrite lookup_insert_eq, (not_elem_of_list_to_map_1 _ _ Hk).
      destruct (skipped mode_of target v0); [done | by rewrite lookup_insert_eq].
    + rewrite (lookup_insert_ne _ k0 k) by done.
      destruct (list_to_map l !! k) as [data|] eqn:Hl;
        destruct (skipped mode_of target v0); try done;
        by rewrite lookup_insert_ne.
Qed.

Lemma filterByMode_lookup (o : RangeOrder) D k :
  filterByMode mode_of target o D !! k
  = match D !! k with
    | Some data => if skipped mode_of target data then None else Some data
    | None => None
    end.
Proof.
  unfold filterByMode. rewrite foldl_keep_lookup by apply range_keys_NoDup.
  rewrite range_to_map, lookup_empty. by destruct (D !! k).
Qed.

Lemma filterByMode_Some (o : RangeOrder) D k data :
  filterByMode mode_of target o D !! k = Some data ↔
  D !! k = Some data ∧ mode_of data = Some target.
Proof.
  rewrite filterByMode_lookup, <- skipped_false.
  destruct (D !! k) as [d|]; [|split; [done | by intros [? _]]].
  destruct (skipped mode_of target d) eqn:Hs; split.
  - done.
  - intros [[= ->] Hd]. congruence.
  - intros [= ->]. done.
  - by intros [-> _].
Qed.


Lemma filterByMode_subseteq (o : RangeOrder) D :
  filterByMode mode_of target o D ⊆ D.
Proof.
  apply map_subseteq_spec. intros k data. rewrite filterByMode_Some. tauto.
Qed.

(** Ranging in another order gives the same dictionary. *)
Lemma filterByMode_order (o o' : RangeOrder) D :
  filterByMode mode_of target o D = filterByMode mode_of target o' D.
Proof. apply map_eq. intros k. by rewrite !filterByMode_lookup. Qed.

(** The filter leaves the dictionary it reads as it was: the loop only
    assigns into the fresh [filteredManifest]. *)
Lemma filterByMode_empty (o : RangeOrder) : filterByMode mode_of target o ∅ = ∅.
Proof. apply map_eq. intros k. by rewrite filterByMode_lookup, lookup_empty. Qed.

(** The filter output merged right after its own input adds nothing. *)
Lemma filtered_after_source (o : RangeOrder) (before : list (gmap string V)) D :
  flattenMaps o (before ++ [D; filterByMode mode_of target o D])
  = flattenMaps o (before ++ [D]).
Proof.
  replace (before ++ [D; filterByMode mode_of target o D])
    with ((before ++ [D]) ++ [filterByMode mode_of target o D])
    by (by rewrite <- app_assoc).
  rewrite (flattenMaps_snoc o (before ++ [D])), flattenMaps_snoc.
  apply map_subseteq_union. etrans; [apply filterByMode_subseteq|].
  apply map_union_subseteq_l.
Qed.

End FilterFacts.

(** The two instances of the filter in the source. *)
Lemma V3_filterActivities_Some (o : RangeOrder) (D : V3.ManifestResponse) k data :
  V3.filterActivities o D !! k = Some data ↔
  D !! k = Some data ∧ V1.Mode data = Some 3%Z.
Proof. apply filterByMode_Some. Qed.

Lemma V2_filterActivities_Some (o : RangeOrder) (D : V2.ManifestResponse) k data :
  V2.filterActivities o D !! k = Some data ↔
  D !! k = Some data ∧ V2.Mode data = 4%Z.
Proof.
  unfold V2.filterActivities. rewrite filterByMode_Some.
  split; intros [HD Hm]; (split; [done | congruence]).
Qed.

(** ** C1: the merge is a union in which the last dictionary wins *)

(** C1. For every ordered sequence of dictionaries given to [flattenMaps], and
    whatever the order in which each of them is ranged, the keys of the result
    are exactly the union of the keys of the inputs, and a key is mapped to
    the value it has in the last input that holds it: if [responses] splits
    into [pre ++ m :: post] with [k] bound to [v] in [m] and unbound in every
    dictionary of [post], the result binds [k] to [v].  With [post] empty of
    that key and [pre] arbitrary this covers both the overwrite of a shared
    key and a key that only an earlier dictionary holds. *)
Theorem flattenMaps_union_last_wins {V : Type} (o : RangeOrder)
    (responses : list (gmap string V)) :
  dom (flattenMaps o responses) = ⋃ (dom <$> responses) ∧
  ∀ pre m post k v,
    responses = pre ++ m :: post →
    m !! k = Some v →
    (∀ m', m' ∈ post → m' !! k = None) →
    flattenMaps o responses !! k = Some v.
Proof.
  split; [apply flattenMaps_dom|].
  intros pre m post k v -> Hm Hpost. by apply flattenMaps_lookup_last.
Qed.

(** The scenario of the specification: race [{"1": human}] then class
    [{"1": titan}]; key ["1"] resolves to the class entry. *)
Lemma flattenMaps_union_last_wins_witness :
  flattenMaps reverse_key_order
    [({["1"%string := human]} : gmap string V1.ManifestObject);
     {["1"%string := titan]}] !! "1"%string = Some titan.
Proof.
  apply (proj2 (flattenMaps_union_last_wins reverse_key_order
                  [{["1"%string := human]}; {["1"%string := titan]}])
           [{["1"%string := human]}] {["1"%string := titan]} [] "1"%string titan).
  - reflexivity.
  - reflexivity.
  - intros m' Hm'. inversion Hm'.
Defined.

(** ** C2: the filter keeps exactly the entries of the target mode *)



(** ** C10: merging the filtered activities after the unfiltered ones *)

(** C10. For all dictionaries [R], [C], [G] and [A], merging [A] followed by
    its own filtered subset gives the merge of [R], [C], [G] and [A]: in the
    revision that merges both (lines 516-517) the filter has no effect on the
    merged dictionary. *)
Theorem flattenMaps_filter_absorbed (o : RangeOrder)
    (R C G A : V3.ManifestResponse) :
  flattenMaps o [R; C; G; A; V3.filterActivities o A] = flattenMaps o [R; C; G; A].
Proof. apply (filtered_after_source V1.Mode 3 o [R; C; G] A). Qed.

(** * Decoding *)

Section DecodeFacts.
Context {T : Type} (zero : T) (decode : T → json → option T).

Lemma decode_map_failed (members : list (string * json)) :
  foldl (λ acc '(key, value),
           match acc with
           | None => None
           | Some m =>
             match decode zero value with
             | Some elem => Some (<[key := elem]> m)
             | None => None
             end
           end) (None : option (gmap string T)) members = None.
Proof. induction members as [|[key value] members IH]; [done | apply IH]. Qed.

Lemma decode_map_members (members : list (string * json)) (cur d : gmap string T) :
  decode_map zero decode cur (JObject members) = Some d →
  ∀ key, key ∈ members.*1 ∨ is_Some (cur !! key) → is_Some (d !! key).
Proof.
  unfold decode_map. revert cur.
  induction members as [|[key0 value] members IH]; intros cur Hd key Hkey.
  - simpl in Hd. injection Hd as <-. destruct Hkey as [Hin | Hcur]; [|done].
    by apply elem_of_nil in Hin.
  - simpl in Hd. destruct (decode zero value) as [elem|].
    + apply (IH _ Hd). rewrite fmap_cons in Hkey.
      destruct Hkey as [[-> | Hin]%elem_of_cons | Hcur].
      * right. simpl. by rewrite lookup_insert_eq.
      * by left.
      * right. destruct (decide (key0 = key)) as [->|Hne].
        -- by rewrite lookup_insert_eq.
        -- by rewrite lookup_insert_ne.
    + by rewrite decode_map_failed in Hd.
Qed.

(** What a successful fetch returns is the decoded body, whole. *)
Lemma fetch_dictionary_Ok (w : World) (url : string) (d : gmap string T) :
  fetch_dictionary zero decode w url = Ok d ↔
  ∃ payload, http_get w url = Body (Some payload) ∧
             decode_map zero decode ∅ payload = Some d.
Proof.
  unfold fetch_dictionary. split.
  - destruct (http_get w url) as [| |[payload|]]; try done.
    destruct (decode_map zero decode ∅ payload) as [d'|] eqn:Hd; [|done].
    intros [= <-]. by exists payload.
  - intros (payload & -> & ->). done.
Qed.

Lemma fetch_dictionary_entries (w : World) (url : string) (d : gmap string T)
    (members : list (string * json)) :
  fetch_dictionary zero decode w url = Ok d →
  http_get w url = Body (Some (JObject members)) →
  ∀ key, key ∈ members.*1 → is_Some (d !! key).
Proof.
  intros (payload & Hget & Hd)%fetch_dictionary_Ok Hbody key Hkey.
  rewrite Hbody in Hget. injection Hget as <-.
  apply (decode_map_members _ _ _ Hd). by left.
Qed.

End DecodeFacts.

(** * The pipeline *)

Lemma step_bind_ext {A B : Type} (s : step A) (k k' : A → step B) :
  (∀ a, k a = k' a) → step_bind s k = step_bind s k'.
Proof. intros H. destruct s; [apply H | done]. Qed.

Lemma step_bind_Next {A B : Type} (s : step A) (k : A → step B) (b : B) :
  step_bind s k = Next b → ∃ a, s = Next a ∧ k a = Next b.
Proof. destruct s as [a|e]; [|done]. intros H. by exists a. Qed.

Lemma or_fatal_Next {A : Type} (format : string) (r : result A) (a : A) :
  or_fatal format r = Next a → r = Ok a.
Proof. destruct r; [|done]. by intros [= ->]. Qed.

(** The merged dictionary does not depend on the order of the ranges. *)
Lemma V2_fetch_and_merge_order (o o' : RangeOrder) (w : World) :
  V2.fetch_and_merge o w = V2.fetch_and_merge o' w.
Proof.
  unfold V2.fetch_and_merge. repeat (apply step_bind_ext; intros ?).
  cbv zeta. unfold V2.filterActivities.
  by rewrite (flattenMaps_order o o'), (filterByMode_order _ _ o o').
Qed.

Lemma V3_fetch_and_merge_order (o o' : RangeOrder) (w : World) :
  V3.fetch_and_merge o w = V3.fetch_and_merge o' w.
Proof.
  unfold V3.fetch_and_merge. repeat (apply step_bind_ext; intros ?).
  cbv zeta. unfold V3.filterActivities.
  by rewrite (flattenMaps_order o o'), (filterByMode_order _ _ o o').
Qed.

(** What [main] hands to [saveToRedis] in the revision of lines 138-336: the
    merge of race, class, gender and the filtered activities. *)
Lemma V2_fetch_and_merge_Next (o : RangeOrder) (w : World)
    (data : V2.ManifestResponse) :
  V2.fetch_and_merge o w = Next data →
  ∃ manifest raceInfo classInfo genderInfo activityInfo,
    V2.fetchManifestEntities w (V2.raceUrl manifest) = Ok raceInfo ∧
    V2.fetchManifestEntities w (V2.classUrl manifest) = Ok classInfo ∧
    V2.fetchManifestEntities w (V2.genderUrl manifest) = Ok genderInfo ∧
    V2.fetchManifestEntities w (V2.activityUrl manifest) = Ok activityInfo ∧
    data = flattenMaps o [raceInfo; classInfo; genderInfo;
                          V2.filterActivities o activityInfo].
Proof.
  unfold V2.fetch_and_merge.
  intros (r & _ & H)%step_bind_Next.
  apply step_bind_Next in H as (manifest & _ & H).
  apply step_bind_Next in H as (raceInfo & HR%or_fatal_Next & H).
  apply step_bind_Next in H as (classInfo & HC%or_fatal_Next & H).
  apply step_bind_Next in H as (genderInfo & HG%or_fatal_Next & H).
  apply step_bind_Next in H as (activityInfo & HA%or_fatal_Next & H).
  injection H as <-.
  by exists manifest, raceInfo, classInfo, genderInfo, activityInfo.
Qed.

(** In the revision of lines 338-521 the unfiltered activities are merged
    too, in fourth place. *)
Lemma V3_fetch_and_merge_Next (o : RangeOrder) (w : World)
    (data : V3.ManifestResponse) :
  V3.fetch_and_merge o w = Next data →
  ∃ manifest raceInfo classInfo genderInfo activityInfo,
    V3.fetchManifestEntities w (V3.raceUrl manifest) = Ok raceInfo ∧
    V3.fetchManifestEntities w (V3.classUrl manifest) = Ok classInfo ∧
    V3.fetchManifestEntities w (V3.genderUrl manifest) = Ok genderInfo ∧
    V3.fetchManifestEntities w (V3.activityUrl manifest) = Ok activityInfo ∧
    data = flattenMaps o [raceInfo; classInfo; genderInfo; activityInfo;
                          V3.filterActivities o activityInfo].
Proof.
  unfold V3.fetch_and_merge.
  intros (r & _ & H)%step_bind_Next.
  apply step_bind_Next in H as (manifest & _ & H).
  apply step_bind_Next in H as (raceInfo & HR%or_fatal_Next & H).
  apply step_bind_Next in H as (classInfo & HC%or_fatal_Next & H).
  apply step_bind_Next in H as (genderInfo & HG%or_fatal_Next & H).
  apply step_bind_Next in H as (activityInfo & HA%or_fatal_Next & H).
  injection H as <-.
  by exists manifest, raceInfo, classInfo, genderInfo, activityInfo.
Qed.

(** * The cache writer *)

Lemma Set_history (w : World) (client : Redis) (key : string) (value : redis_arg) :
  ∃ ok, history (Set_ w client key value).2 = history client ++ [SetKey key ok].
Proof.
  unfold Set_. destruct value; [destruct (set_fails w key)|]; simpl; eauto.
Qed.

Lemma Set_Bytes_store (w : World) (client : Redis) (key : string) (payload : json) :
  store (Set_ w client key (Bytes payload)).2
  = if set_fails w key then store client else <[key := payload]> (store client).
Proof. unfold Set_. by destruct (set_fails w key). Qed.

(** [saveToRedis] of lines 265-279 never returns an error. *)
Lemma V2_save_entries_nil_error (w : World) (client : Redis)
    (entries : list (string * V2.ManifestObject)) :
  (V2.save_entries w client entries).1 = None.
Proof.
  revert client. induction entries as [|[key value] entries IH]; intros client.
  - done.
  - cbn [V2.save_entries V2.Marshal].
    destruct (Set_ w client key _) as [cmd client']. apply IH.
Qed.

Lemma V2_save_entries_history (w : World) (client : Redis)
    (entries : list (string * V2.ManifestObject)) :
  ∃ sets, history (V2.save_entries w client entries).2 = history client ++ sets
          ∧ Forall is_set sets.
Proof.
  revert client. induction entries as [|[key value] entries IH]; intros client.
  - exists []. by rewrite app_nil_r.
  - cbn [V2.save_entries V2.Marshal].
    destruct (Set_history w client key
                (Bytes (V2.encode_ManifestObject value))) as [ok Hset].
    destruct (Set_ w client key _) as [cmd client']. simpl in Hset.
    destruct (IH client') as (sets & Hh & Hsets).
    exists (SetKey key ok :: sets). split.
    + by rewrite Hh, Hset, <- app_assoc.
    + by constructor.
Qed.

Lemma V3_save_entries_history (w : World) (client : Redis)
    (entries : list (string * V3.ManifestObject)) :
  ∃ sets, history (V3.save_entries w client entries).2 = history client ++ sets
          ∧ Forall is_set sets.
Proof.
  destruct entries as [|[key value] entries].
  - exists []. by rewrite app_nil_r.
  - exists [SetKey key false]. split; [done | by repeat constructor].
Qed.

(** The keyspace after the loop of lines 267-276: an entry whose SET went
    through holds the JSON object of its record, every other key is as it was
    before. *)
Lemma V2_save_entries_store (w : World) (client : Redis)
    (entries : list (string * V2.ManifestObject)) (k : string) :
  NoDup entries.*1 →
  store (V2.save_entries w client entries).2 !! k
  = match (list_to_map entries : gmap string V2.ManifestObject) !! k with
    | Some value =>
      if set_fails w k then store client !! k
      else Some (V2.encode_ManifestObject value)
    | None => store client !! k
    end.
Proof.
  revert client. induction entries as [|[key value] entries IH]; intros client Hnd.
  - simpl. by rewrite lookup_empty.
  - rewrite fmap_cons in Hnd. apply NoDup_cons in Hnd as [Hkey Hnd].
    cbn [V2.save_entries V2.Marshal list_to_map foldr fst snd] in *.
    pose proof (Set_Bytes_store w client key (V2.encode_ManifestObject value)) as Hst.
    destruct (Set_ w client key _) as [cmd client']. simpl in Hst.
    rewrite IH, Hst by done. destruct (decide (key = k)) as [->|Hne].
    + rewrite lookup_insert_eq, (not_elem_of_list_to_map_1 _ _ Hkey).
      destruct (set_fails w k); [done | by rewrite lookup_insert_eq].
    + rewrite (lookup_insert_ne _ key k) by done.
      destruct (list_to_map entries !! k) as [value'|];
        destruct (set_fails w key), (set_fails w k); try done;
        by rewrite lookup_insert_ne.
Qed.

Lemma V2_saveToRedis_store (o : RangeOrder) (w : World) (client : Redis)
    (data : V2.ManifestResponse) (k : string) :
  store (V2.saveToRedis o w client data).2 !! k
  = match data !! k with
    | Some value =>
      if set_fails w k then store client !! k
      else Some (V2.encode_ManifestObject value)
    | None => store client !! k
    end.
Proof.
  unfold V2.saveToRedis.
  rewrite V2_save_entries_store by apply range_keys_NoDup.
  by rewrite range_to_map.
Qed.

Lemma flushed_then_sets (sets : list event) :
  Forall is_set sets → writes_follow_flush (Flushed true :: sets).
Proof.
  intros Hsets pre key ok post Heq. destruct pre as [|e pre].
  - done.
  - injection Heq as -> _. apply list_elem_of_here.
Qed.

Lemma failed_flush_alone : writes_follow_flush [Flushed false].
Proof.
  intros pre key ok post Heq. destruct pre as [|e [|e' pre]]; done.
Qed.

(** The shape of a run of [main] (lines 294-336): either the flush fails and
    nothing else is issued, or the flush succeeds and only SETs follow. *)
Lemma V2_main_shape (o : RangeOrder) (w : World) (cache : gmap string json) :
  (flush_fails w = true ∧
   V2.main o w cache =
     (ClearCacheFailed (Errorf "Failed to flush the Redis cache: %w" [] RedisError),
      {| store := cache; history := [Flushed false] |}))
  ∨ (flush_fails w = false ∧
     ∃ sets, history (V2.main o w cache).2 = Flushed true :: sets
             ∧ Forall is_set sets).
Proof.
  unfold V2.main, clearCache, FlushAll, NewClient. simpl.
  destruct (flush_fails w); [by left | right]. split; [done|].
  destruct (V2.fetch_and_merge o w) as [data|e].
  - unfold V2.saveToRedis.
    destruct (V2_save_entries_history w
                {| store := ∅; history := [Flushed true] |} (range o data))
      as (sets & Hh & Hsets).
    destruct (V2.save_entries w _ (range o data)) as [err client'].
    exists sets. done.
  - exists []. done.
Qed.

(** The same for [main] of lines 478-521. *)
Lemma V3_main_shape (o : RangeOrder) (w : World) (cache : gmap string json) :
  (flush_fails w = true ∧
   V3.main o w cache =
     (ClearCacheFailed (Errorf "Failed to flush the Redis cache: %w" [] RedisError),
      {| store := cache; history := [Flushed false] |}))
  ∨ (flush_fails w = false ∧
     ∃ sets, history (V3.main o w cache).2 = Flushed true :: sets
             ∧ Forall is_set sets).
Proof.
  unfold V3.main, clearCache, FlushAll, NewClient. simpl.
  destruct (flush_fails w); [by left | right]. split; [done|].
  destruct (V3.fetch_and_merge o w) as [data|e].
  - unfold V3.saveToRedis.
    destruct (V3_save_entries_history w
                {| store := ∅; history := [Flushed true] |} (range o data))
      as (sets & Hh & Hsets).
    destruct (V3.save_entries w _ (range o data)) as [[err|e] client'];
      exists sets; done.
  - exists []. done.
Qed.

(** The keyspace a run of lines 294-336 leaves behind once the flush went
    through: the payloads of the merged entries whose SET went through. *)
Lemma V2_main_store (o : RangeOrder) (w : World) (cache : gmap string json)
    (k : string) :
  flush_fails w = false →
  store (V2.main o w cache).2 !! k
  = match V2.fetch_and_merge o w with
    | Next data =>
      match data !! k with
      | Some value =>
        if set_fails w k then None else Some (V2.encode_ManifestObject value)
      | None => None
      end
    | Halt _ => None
    end.
Proof.
  intros Hflush. unfold V2.main, clearCache, FlushAll, NewClient. simpl.
  rewrite Hflush. destruct (V2.fetch_and_merge o w) as [data|e].
  - pose proof (V2_saveToRedis_store o w
                  {| store := ∅; history := [Flushed true] |} data k) as Hst.
    destruct (V2.saveToRedis o w _ data) as [err client']. simpl in *.
    rewrite Hst, lookup_empty. by destruct (data !! k), (set_fails w k).
  - simpl. apply lookup_empty.
Qed.

(** ** C3: which dictionaries reach the cache writer *)

(** The revision of lines 138-336 does what the specification says: whenever
    the run gets as far as the cache writer, the dictionary it hands over is
    the merge of race, class, gender and the filtered activities, and an
    activity entry of another mode is in it only if one of the first three
    dictionaries holds its key. *)
Lemma V2_writer_gets_four (o : RangeOrder) (w : World)
    (data : V2.ManifestResponse) :
  V2.fetch_and_merge o w = Next data →
  ∃ raceInfo classInfo genderInfo activityInfo,
    data = flattenMaps o [raceInfo; classInfo; genderInfo;
                          V2.filterActivities o activityInfo].
Proof.
  intros (manifest & R & C & G & A & _ & _ & _ & _ & ->)%V2_fetch_and_merge_Next.
  by exists R, C, G, A.
Qed.

(** C3, on the revision of lines 338-521.  With an activity dictionary whose
    one entry, ["9"], has no mode, and empty race, class and gender
    dictionaries, the dictionary handed to the cache writer holds ["9"],
    whereas the merge of race, class, gender and the filtered activities does
    not: the unfiltered activity dictionary takes part in the merge of line
    517. *)
Theorem V3_writer_gets_unfiltered (o : RangeOrder) :
  ∃ data activityInfo,
    V3.fetch_and_merge o modeless_world = Next data ∧
    V3.fetchManifestEntities modeless_world
      "https://www.bungie.net/Platform//activity" = Ok activityInfo ∧
    data !! "9"%string = Some V1.zero_ManifestObject ∧
    flattenMaps o [∅; ∅; ∅; V3.filterActivities o activityInfo] !! "9"%string
    = None.
Proof.
  exists {["9"%string := V1.zero_ManifestObject]},
         {["9"%string := V1.zero_ManifestObject]}.
  rewrite (V3_fetch_and_merge_order o key_order).
  rewrite (flattenMaps_order o key_order).
  unfold V3.filterActivities. rewrite (filterByMode_order _ _ o key_order).
  repeat split; vm_compute; reflexivity.
Qed.

(** ** C4: the flush comes first *)

(** C4. In every run of [main] (lines 478-521, and the same holds for lines
    294-336), whatever the remote and the store do and whatever the cache
    held, every SET in the history of the client comes after a FLUSHALL that
    succeeded; and if the flush fails, the run stops with the error of
    [clearCache], the only command issued is the failed flush, and the
    keyspace is what it was. *)
Theorem no_write_before_flush (o : RangeOrder) (w : World)
    (cache : gmap string json) :
  (writes_follow_flush (history (V3.main o w cache).2) ∧
   (flush_fails w = true →
    V3.main o w cache =
      (ClearCacheFailed
         (Errorf "Failed to flush the Redis cache: %w" [] RedisError),
       {| store := cache; history := [Flushed false] |})))
  ∧
  (writes_follow_flush (history (V2.main o w cache).2) ∧
   (flush_fails w = true →
    V2.main o w cache =
      (ClearCacheFailed
         (Errorf "Failed to flush the Redis cache: %w" [] RedisError),
       {| store := cache; history := [Flushed false] |}))).
Proof.
  split.
  - destruct (V3_main_shape o w cache) as [[Hf Hrun] | (Hf & sets & Hh & Hsets)].
    + split; [|done]. rewrite Hrun. apply failed_flush_alone.
    + split; [|congruence]. rewrite Hh. by apply flushed_then_sets.
  - destruct (V2_main_shape o w cache) as [[Hf Hrun] | (Hf & sets & Hh & Hsets)].
    + split; [|done]. rewrite Hrun. apply failed_flush_alone.
    + split; [|congruence]. rewrite Hh. by apply flushed_then_sets.
Qed.

Lemma no_write_before_flush_witness :
  V3.main key_order unflushable_world {["old"%string := JNull]} =
    (ClearCacheFailed
       (Errorf "Failed to flush the Redis cache: %w" [] RedisError),
     {| store := {["old"%string := JNull]}; history := [Flushed false] |}).
Proof.
  apply (proj2 (proj1 (no_write_before_flush key_order unflushable_world
                         {["old"%string := JNull]}))).
  reflexivity.
Defined.

(** ** C5: a SET that fails *)

(** C5, on the revision of lines 265-279 and 335.  [saveToRedis] returns a nil
    error whatever the store answers, because the result of [client.Set] is
    dropped; and [main] drops what [saveToRedis] returns.  In a world whose
    store refuses the SET of key ["1"], the run ends as if nothing had
    happened: the SET is in the history as failed, the key is not in the
    cache, and [main] finishes normally. *)
Theorem V2_failed_write_unreported :
  (∀ (o : RangeOrder) (w : World) (client : Redis) (data : V2.ManifestResponse),
     (V2.saveToRedis o w client data).1 = None) ∧
  ∀ o : RangeOrder,
    V2.fetch_and_merge o refusing_world
      = Next {["1"%string := V2.zero_ManifestObject]} ∧
    V2.main o refusing_world ∅ =
      (Finished,
       {| store := ∅; history := [Flushed true; SetKey "1" false] |}).
Proof.
  split.
  - intros o w client data. apply V2_save_entries_nil_error.
  - intros o.
    assert (V2.fetch_and_merge o refusing_world
            = Next {["1"%string := V2.zero_ManifestObject]}) as Hdata.
    { rewrite (V2_fetch_and_merge_order o key_order). vm_compute. reflexivity. }
    split; [done|].
    unfold V2.main. rewrite Hdata. unfold V2.saveToRedis.
    assert (range o ({["1"%string := V2.zero_ManifestObject]}
                       : V2.ManifestResponse)
            = [("1"%string, V2.zero_ManifestObject)]) as ->.
    { apply Permutation_singleton_r. rewrite range_perm.
      by rewrite map_to_list_singleton. }
    vm_compute. reflexivity.
Qed.

(** ** C6: the URL of the race dictionary *)

(** The revision of lines 138-336 joins with a single slash. *)
Lemma V2_raceUrl_foo (manifest : Manifest) :
  DestinyRaceDefinition
    (En (JSONWorldComponentContentPaths (Response manifest))) = "/foo"%string →
  V2.raceUrl manifest = "https://www.bungie.net/foo"%string.
Proof. unfold V2.raceUrl. by intros ->. Qed.

(** C6, on the revision of lines 338-521 (the constants of lines 13-14 are
    the same).  For a manifest whose race path is ["/foo"] the URL is
    [baseUrl + "/foo"], and since that [baseUrl] ends in a slash there are
    two slashes at the join. *)
Theorem V3_raceUrl_double_slash (manifest : Manifest) :
  DestinyRaceDefinition
    (En (JSONWorldComponentContentPaths (Response manifest))) = "/foo"%string →
  V3.raceUrl manifest = V3.baseUrl +:+ "/foo" ∧
  V3.raceUrl manifest = "https://www.bungie.net/Platform//foo"%string.
Proof. unfold V3.raceUrl. by intros ->. Qed.

Lemma V3_raceUrl_double_slash_witness :
  V3.raceUrl (manifest_with_race "/foo")
  = "https://www.bungie.net/Platform//foo"%string.
Proof.
  apply (proj2 (V3_raceUrl_double_slash (manifest_with_race "/foo") eq_refl)).
Defined.

(** ** C7: what the fetch stage returns *)

(** The fetcher of lines 76-106 drops entries.  The payload [{"9": {}}] is
    decoded without error, its entry ["9"] has no mode, and the dictionary
    returned for it is empty. *)
Lemma fetchAndFilter_drops_modeless_entry :
  ∃ d,
    V1.fetchAndFilterManifestEntities key_order
      (constant_world (Body (Some modeless_body))) "https://example.test/x"
      = Ok d ∧
    decode_map V1.zero_ManifestObject V1.decode_ManifestObject ∅ modeless_body
      = Some {["9"%string := V1.zero_ManifestObject]} ∧
    d !! "9"%string = None.
Proof. exists ∅. repeat split; vm_compute; reflexivity. Qed.

(** C7, amended.  [fetchManifestEntities] (lines 213-230 and 413-430) returns
    the decoded payload whole: every member of the payload object is a key of
    the dictionary, whatever its mode.  [fetchAndFilterManifestEntities]
    (lines 76-106) returns exactly the decoded entries whose mode is non-nil
    and equal to 3. *)
Theorem fetch_stage_entries (o : RangeOrder) (w : World) (url : string) :
  (∀ d members,
     V3.fetchManifestEntities w url = Ok d →
     http_get w url = Body (Some (JObject members)) →
     ∀ key, key ∈ members.*1 → is_Some (d !! key)) ∧
  (∀ d members,
     V2.fetchManifestEntities w url = Ok d →
     http_get w url = Body (Some (JObject members)) →
     ∀ key, key ∈ members.*1 → is_Some (d !! key)) ∧
  (∀ d,
     V1.fetchAndFilterManifestEntities o w url = Ok d →
     ∃ payload decoded,
       http_get w url = Body (Some payload) ∧
       decode_map V1.zero_ManifestObject V1.decode_ManifestObject ∅ payload
         = Some decoded ∧
       ∀ key data,
         d !! key = Some data ↔
         decoded !! key = Some data ∧ V1.Mode data = Some 3%Z).
Proof.
  split; [|split].
  - intros d members. apply fetch_dictionary_entries.
  - intros d members. apply fetch_dictionary_entries.
  - intros d. unfold V1.fetchAndFilterManifestEntities.
    destruct (fetch_dictionary _ _ w url) as [decoded|err] eqn:Hfetch; [|done].
    intros [= <-]. apply fetch_dictionary_Ok in Hfetch as (payload & Hget & Hd).
    exists payload, decoded. split; [done|]. split; [done|].
    intros key data. apply filterByMode_Some.
Qed.

Lemma fetch_stage_entries_witness :
  is_Some (({["9"%string := V1.zero_ManifestObject]} : V3.ManifestResponse)
             !! "9"%string).
Proof.
  apply (proj1 (fetch_stage_entries key_order
                  (constant_world (Body (Some modeless_body)))
                  "https://example.test/x")
           {["9"%string := V1.zero_ManifestObject]}
           [("9"%string, JObject [])]).
  - reflexivity.
  - reflexivity.
  - apply list_elem_of_here.
Defined.

(** ** C8: a record and its cache payload *)

(** A valid string is written as it is. *)
Lemma coerce_from_valid (skip : nat) (s : string) :
  valid_from skip s = true → coerce_from skip s = s.
Proof.
  revert skip. induction s as [|b rest IH]; intros skip; [done|].
  cbn [valid_from coerce_from]. destruct skip as [|k].
  - destruct (rune_width (String b rest)) as [n|]; [|done].
    intros H. by rewrite IH.
  - intros H. by rewrite IH.
Qed.

Lemma coerce_utf8_valid (s : string) : utf8_valid s = true → coerce_utf8 s = s.
Proof. apply coerce_from_valid. Qed.

Lemma decode_encode_DisplayProperties (cur d : DisplayProperties) :
  DisplayProperties_utf8 d →
  decode_DisplayProperties cur (encode_DisplayProperties d) = Some d.
Proof.
  destruct d as [description name icon hasIcon].
  intros (Hd & Hn & Hi). simpl in Hd, Hn, Hi. unfold encode_DisplayProperties.
  cbn [Description Name Icon HasIcon].
  by rewrite !coerce_utf8_valid.
Qed.

(** Decoding the JSON object of a record into a fresh record gives the
    record back. *)
Lemma V2_decode_encode (R : V2.ManifestObject) :
  ints_in_range R → strings_utf8 R →
  V2.decode_ManifestObject V2.zero_ManifestObject (V2.encode_ManifestObject R)
  = Some R.
Proof.
  intros [Hmode Htime] (Hdp & Hodp & Hicon).
  destruct R as [mode dp odp icon time].
  simpl in Hmode, Htime, Hdp, Hodp, Hicon.
  unfold V2.decode_ManifestObject, V2.encode_ManifestObject.
  cbn [V2.Mode V2.DisplayProperties' V2.OriginalDisplayProperties
       V2.ReleaseIcon V2.ReleaseTime].
  rewrite (coerce_utf8_valid icon Hicon).
  repeat (cbv - [is_int decode_DisplayProperties encode_DisplayProperties];
          first [ rewrite Hmode | rewrite Htime
                | rewrite (decode_encode_DisplayProperties _ dp Hdp)
                | rewrite (decode_encode_DisplayProperties _ odp Hodp) ]).
  reflexivity.
Qed.

(** The record with a nullable mode (lines 31-38 and 368-375): a nil mode is
    left out of the object and comes back nil. *)
Lemma V1_decode_encode (R : V1.ManifestObject) :
  (∀ mode, V1.Mode R = Some mode → is_int mode = true) →
  is_int (V1.ReleaseTime R) = true →
  DisplayProperties_utf8 (V1.DisplayProperties' R) →
  DisplayProperties_utf8 (V1.OriginalDisplayProperties R) →
  utf8_valid (V1.ReleaseIcon R) = true →
  V1.decode_ManifestObject V1.zero_ManifestObject (V1.encode_ManifestObject R)
  = Some R.
Proof.
  intros Hmode Htime Hdp Hodp Hicon. destruct R as [[mode|] dp odp icon time];
    simpl in Hmode, Htime, Hdp, Hodp, Hicon;
    [specialize (Hmode mode eq_refl) | clear Hmode];
    unfold V1.decode_ManifestObject, V1.encode_ManifestObject;
    cbn [V1.Mode V1.DisplayProperties' V1.OriginalDisplayProperties
         V1.ReleaseIcon V1.ReleaseTime];
    rewrite (coerce_utf8_valid icon Hicon);
    repeat (cbv - [is_int decode_DisplayProperties encode_DisplayProperties];
            first [ rewrite Hmode | rewrite Htime
                  | rewrite (decode_encode_DisplayProperties _ dp Hdp)
                  | rewrite (decode_encode_DisplayProperties _ odp Hodp) ]);
    reflexivity.
Qed.

(** The record of one entry is not what comes back for it.  [garbled] has
    integers that are Go [int]s and a name that is the byte 255; the payload
    that [json.Marshal] computes for it carries U+FFFD as the name, and
    [json.Unmarshal] of that payload gives a record with another name. *)
Lemma Marshal_rewrites_invalid_utf8 :
  ints_in_range garbled ∧
  ∃ payload,
    V2.Marshal garbled = Ok payload ∧
    V2.Unmarshal payload = Ok garbled_read_back ∧
    garbled_read_back ≠ garbled.
Proof.
  split; [split; reflexivity|].
  exists (V2.encode_ManifestObject garbled).
  split; [reflexivity|]. split; [vm_compute; reflexivity | discriminate].
Qed.

(** C8, amended.  For every record whose strings are valid UTF-8 and whose
    integers are Go [int]s, the payload that [saveToRedis] computes with
    [json.Marshal] (line 269) decodes, with [json.Unmarshal] into a fresh
    record, to the record itself: mode, both display-property blocks, release
    icon and release time are the same.  (A byte that starts no rune is
    written as U+FFFD, so a record with such a string does not come back.) *)
Theorem Marshal_Unmarshal_roundtrip (R : V2.ManifestObject) :
  ints_in_range R →
  strings_utf8 R →
  ∃ payload, V2.Marshal R = Ok payload ∧ V2.Unmarshal payload = Ok R.
Proof.
  intros HR Hutf8. exists (V2.encode_ManifestObject R). split; [done|].
  unfold V2.Unmarshal. by rewrite V2_decode_encode.
Qed.

Lemma Marshal_Unmarshal_roundtrip_witness :
  ∃ payload, V2.Marshal raid = Ok payload ∧ V2.Unmarshal payload = Ok raid.
Proof.
  apply (Marshal_Unmarshal_roundtrip raid).
  - split; reflexivity.
  - repeat split; reflexivity.
Defined.

(** X15. What is read back from the cache after a run of the writer is the
    record that was written, for every key whose SET went through and whose
    record has valid UTF-8 strings and integers that are Go [int]s. *)
Lemma V2_cache_entry_decodes (o : RangeOrder) (w : World) (client : Redis)
    (data : V2.ManifestResponse) (key : string) (R : V2.ManifestObject) :
  data !! key = Some R → set_fails w key = false →
  ints_in_range R → strings_utf8 R →
  ∃ payload,
    store (V2.saveToRedis o w client data).2 !! key = Some payload ∧
    V2.Unmarshal payload = Ok R.
Proof.
  intros Hdata Hset HR Hutf8. rewrite V2_saveToRedis_store, Hdata, Hset.
  exists (V2.encode_ManifestObject R). split; [done|].
  unfold V2.Unmarshal. by rewrite V2_decode_encode.
Qed.

(** ** C9: two runs over the same remote data *)

(** A run reaches the manifest only after [clearCache] has succeeded (lines
    303-308).  When the flush fails nothing is fetched and the cache stays as
    the run found it. *)
Lemma V2_failed_flush_keeps_prior_contents :
  store (V2.main key_order unflushable_world ∅).2 = ∅ ∧
  store (V2.main key_order unflushable_world {["old"%string := JNull]}).2
    = {["old"%string := JNull]}.
Proof. split; reflexivity. Qed.



(** * Further properties of the merge and of the filter *)

(** X1. Merging a single dictionary gives that dictionary back, in whatever
    order it is ranged. *)
Theorem flattenMaps_single {V : Type} (o : RangeOrder) (m : gmap string V) :
  flattenMaps o [m] = m.
Proof.
  change [m] with ([] ++ [m]).
  by rewrite flattenMaps_snoc, flattenMaps_nil, (right_id_L ∅ (∪)).
Qed.

(** X2. Merging a sequence that is split in two is merging each part and
    letting the second part win over the first; in particular merging no
    dictionary gives the empty dictionary. *)
Theorem flattenMaps_app {V : Type} (o : RangeOrder)
    (xs ys : list (gmap string V)) :
  flattenMaps o (xs ++ ys) = flattenMaps o ys ∪ flattenMaps o xs ∧
  flattenMaps (V:=V) o [] = ∅.
Proof.
  split; [|done]. induction ys as [|m ys IH] using rev_ind.
  - by rewrite app_nil_r, flattenMaps_nil, (left_id_L ∅ (∪)).
  - rewrite app_assoc, !flattenMaps_snoc, IH. apply (assoc_L (∪)).
Qed.

(** X3. The merged dictionary is the same for every order in which Go may
    range over the input maps. *)
Theorem flattenMaps_any_order {V : Type} (o o' : RangeOrder)
    (responses : list (gmap string V)) :
  flattenMaps o responses = flattenMaps o' responses.
Proof.
  induction responses as [|m ms IH] using rev_ind; [done|].
  by rewrite !flattenMaps_snoc, IH.
Qed.

(** X4. The merge invents nothing: every entry of the result is an entry of
    one of the inputs, under the same key. *)
Theorem flattenMaps_entry_from_input {V : Type} (o : RangeOrder)
    (responses : list (gmap string V)) (k : string) (v : V) :
  flattenMaps o responses !! k = Some v →
  ∃ m, m ∈ responses ∧ m !! k = Some v.
Proof.
  induction responses as [|m ms IH] using rev_ind.
  - by rewrite flattenMaps_nil, lookup_empty.
  - rewrite flattenMaps_snoc. intros [Hm | [_ Hms]]%lookup_union_Some_raw.
    + exists m. split; [|done]. apply elem_of_app. right. apply list_elem_of_here.
    + destruct (IH Hms) as (m' & Hin & Hm'). exists m'. split; [|done].
      apply elem_of_app. by left.
Qed.

Lemma flattenMaps_entry_from_input_witness :
  ∃ m : gmap string V1.ManifestObject,
    m ∈ [{["1"%string := human]}; {["7"%string := strike]}]
    ∧ m !! "7"%string = Some strike.
Proof.
  apply (flattenMaps_entry_from_input key_order
           [{["1"%string := human]}; {["7"%string := strike]}]).
  reflexivity.
Defined.

(** X5. Filtering twice is filtering once. *)
Theorem filterByMode_idempotent {V : Type} (mode_of : V → option Z) (target : Z)
    (o : RangeOrder) (D : gmap string V) :
  filterByMode mode_of target o (filterByMode mode_of target o D)
  = filterByMode mode_of target o D.
Proof.
  apply map_eq. intros k. rewrite (filterByMode_lookup _ _ o (filterByMode _ _ o D)).
  rewrite filterByMode_lookup. destruct (D !! k) as [data|]; [|done].
  destruct (skipped mode_of target data) eqn:Hs; [done | by rewrite Hs].
Qed.

(** X6. The filter loop computes the sub-dictionary of the entries whose mode
    is the target: it is the library filter of finite maps with that
    predicate, for every order of the range. *)
Theorem filterByMode_is_filter {V : Type} (mode_of : V → option Z) (target : Z)
    (o : RangeOrder) (D : gmap string V) :
  filterByMode mode_of target o D
  = filter (λ entry : string * V, mode_of entry.2 = Some target) D.
Proof.
  apply map_eq. intros k. apply option_eq. intros data.
  by rewrite filterByMode_Some, map_lookup_filter_Some.
Qed.

(** X7. The filtered dictionary is the same for every order of the range,
    and it has at most as many entries as the input (the two sizes that
    lines 237 and 248 log). *)
Theorem filterByMode_any_order_size {V : Type} (mode_of : V → option Z)
    (target : Z) (o o' : RangeOrder) (D : gmap string V) :
  filterByMode mode_of target o D = filterByMode mode_of target o' D ∧
  size (filterByMode mode_of target o D) ≤ size D.
Proof.
  split.
  - apply map_eq. intros k. by rewrite !filterByMode_lookup.
  - apply map_subseteq_size, filterByMode_subseteq.
Qed.

(** * Further properties of the pipeline *)

Lemma flattenMaps_four {V : Type} (o : RangeOrder) (a b c d : gmap string V) :
  flattenMaps o [a; b; c; d] = d ∪ (c ∪ (b ∪ a)).
Proof.
  unfold flattenMaps. simpl. by rewrite !range_assign_union, (right_id_L ∅ (∪)).
Qed.

(** X8. In the revision of lines 138-336, whenever [main] gets as far as the
    cache writer, the dictionary it hands over is the filtered activities laid
    over gender, laid over class, laid over race: an activity of mode 4 wins
    over every other entry of its key, and an activity of another mode
    contributes nothing. *)
Theorem V2_merged_data (o : RangeOrder) (w : World) (data : V2.ManifestResponse) :
  V2.fetch_and_merge o w = Next data →
  ∃ manifest raceInfo classInfo genderInfo activityInfo,
    V2.fetchManifestEntities w (V2.raceUrl manifest) = Ok raceInfo ∧
    V2.fetchManifestEntities w (V2.classUrl manifest) = Ok classInfo ∧
    V2.fetchManifestEntities w (V2.genderUrl manifest) = Ok genderInfo ∧
    V2.fetchManifestEntities w (V2.activityUrl manifest) = Ok activityInfo ∧
    data = filter (λ entry, V2.Mode entry.2 = 4%Z) activityInfo
           ∪ (genderInfo ∪ (classInfo ∪ raceInfo)).
Proof.
  intros (manifest & R & C & G & A & HR & HC & HG & HA & ->)%V2_fetch_and_merge_Next.
  exists manifest, R, C, G, A. repeat (split; [done|]).
  rewrite flattenMaps_four. f_equal.
  apply map_eq. intros k. apply option_eq. intros d.
  by rewrite V2_filterActivities_Some, map_lookup_filter_Some.
Qed.

Lemma V2_merged_data_witness :
  ∃ manifest raceInfo classInfo genderInfo activityInfo,
    V2.fetchManifestEntities refusing_world (V2.raceUrl manifest) = Ok raceInfo ∧
    V2.fetchManifestEntities refusing_world (V2.classUrl manifest) = Ok classInfo ∧
    V2.fetchManifestEntities refusing_world (V2.genderUrl manifest) = Ok genderInfo ∧
    V2.fetchManifestEntities refusing_world (V2.activityUrl manifest)
      = Ok activityInfo ∧
    ({["1"%string := V2.zero_ManifestObject]} : V2.ManifestResponse)
    = filter (λ entry, V2.Mode entry.2 = 4%Z) activityInfo
      ∪ (genderInfo ∪ (classInfo ∪ raceInfo)).
Proof.
  apply (V2_merged_data key_order refusing_world). vm_compute. reflexivity.
Defined.

(** X9. In the revision of lines 338-521 the dictionary handed to the cache
    writer is the whole activity dictionary laid over gender, class and race:
    every activity entry is in it, whatever its mode. *)
Theorem V3_merged_data (o : RangeOrder) (w : World) (data : V3.ManifestResponse) :
  V3.fetch_and_merge o w = Next data →
  ∃ manifest raceInfo classInfo genderInfo activityInfo,
    V3.fetchManifestEntities w (V3.raceUrl manifest) = Ok raceInfo ∧
    V3.fetchManifestEntities w (V3.classUrl manifest) = Ok classInfo ∧
    V3.fetchManifestEntities w (V3.genderUrl manifest) = Ok genderInfo ∧
    V3.fetchManifestEntities w (V3.activityUrl manifest) = Ok activityInfo ∧
    data = activityInfo ∪ (genderInfo ∪ (classInfo ∪ raceInfo)).
Proof.
  intros (manifest & R & C & G & A & HR & HC & HG & HA & ->)%V3_fetch_and_merge_Next.
  exists manifest, R, C, G, A. repeat (split; [done|]).
  etrans; [apply (filtered_after_source V1.Mode 3 o [R; C; G] A)|].
  apply flattenMaps_four.
Qed.

Lemma V3_merged_data_witness :
  ∃ manifest raceInfo classInfo genderInfo activityInfo,
    V3.fetchManifestEntities modeless_world (V3.raceUrl manifest) = Ok raceInfo ∧
    V3.fetchManifestEntities modeless_world (V3.classUrl manifest) = Ok classInfo ∧
    V3.fetchManifestEntities modeless_world (V3.genderUrl manifest)
      = Ok genderInfo ∧
    V3.fetchManifestEntities modeless_world (V3.activityUrl manifest)
      = Ok activityInfo ∧
    ({["9"%string := V1.zero_ManifestObject]} : V3.ManifestResponse)
    = activityInfo ∪ (genderInfo ∪ (classInfo ∪ raceInfo)).
Proof.
  apply (V3_merged_data key_order modeless_world). vm_compute. reflexivity.
Defined.

(** Every way [fetch_and_merge] can stop is a [log.Fatalf] with a cause, and
    never the one of line 310, since [fetchManifest] does not return an
    error. *)
Lemma V2_fetch_and_merge_Halt (o : RangeOrder) (w : World) (e : exit) :
  V2.fetch_and_merge o w = Halt e →
  ∃ format cause, e = Fatal format (Some cause) ∧ format ≠ "%v"%string.
Proof.
  unfold V2.fetch_and_merge, fetchManifest.
  destruct (http_get w (V2.baseUrl +:+ V2.manifestPath)) as [| |[payload|]];
    try (intros [= <-]; eexists _, _; split; [reflexivity | discriminate]).
  destruct (decode_Manifest zero_Manifest payload) as [manifest|];
    [|intros [= <-]; eexists _, _; split; [reflexivity | discriminate]].
  cbn [step_bind or_fatal].
  destruct (V2.fetchManifestEntities w (V2.raceUrl manifest)) as [R|err];
    [|intros [= <-]; eexists _, _; split; [reflexivity | discriminate]].
  cbn [step_bind or_fatal].
  destruct (V2.fetchManifestEntities w (V2.classUrl manifest)) as [C|err];
    [|intros [= <-]; eexists _, _; split; [reflexivity | discriminate]].
  cbn [step_bind or_fatal].
  destruct (V2.fetchManifestEntities w (V2.genderUrl manifest)) as [G|err];
    [|intros [= <-]; eexists _, _; split; [reflexivity | discriminate]].
  cbn [step_bind or_fatal].
  destruct (V2.fetchManifestEntities w (V2.activityUrl manifest)) as [A|err];
    [|intros [= <-]; eexists _, _; split; [reflexivity | discriminate]].
  done.
Qed.

(** X10. How a run of [main] (lines 294-336) can end.  It finishes only if
    the flush went through and the four dictionaries were fetched; it stops
    at [clearCache] exactly when the flush fails; otherwise it is ended by a
    [log.Fatalf] that carries its cause and is not the one of line 310,
    which is unreachable; it never panics. *)
Theorem V2_main_exits (o : RangeOrder) (w : World) (cache : gmap string json) :
  match (V2.main o w cache).1 with
  | Finished => flush_fails w = false ∧ ∃ data, V2.fetch_and_merge o w = Next data
  | ClearCacheFailed err =>
    flush_fails w = true ∧
    err = Errorf "Failed to flush the Redis cache: %w" [] RedisError
  | Fatal format cause =>
    flush_fails w = false ∧ is_Some cause ∧ format ≠ "%v"%string
  | Panicked _ _ => False
  end.
Proof.
  unfold V2.main, clearCache, FlushAll, NewClient. simpl.
  destruct (flush_fails w); [done|].
  destruct (V2.fetch_and_merge o w) as [data|e] eqn:Hfm.
  - destruct (V2.saveToRedis o w _ data) as [err client']. simpl. eauto.
  - apply V2_fetch_and_merge_Halt in Hfm as (format & cause & -> & Hne).
    simpl. eauto.
Qed.

(** X11. A run of lines 294-336 that fails after the flush (the manifest or
    one of the four dictionaries cannot be fetched or decoded) leaves the cache
    empty: the old entries are gone and no new entry is written. *)
Theorem V2_main_fetch_failure (o : RangeOrder) (w : World)
    (cache : gmap string json) (e : exit) :
  flush_fails w = false →
  V2.fetch_and_merge o w = Halt e →
  V2.main o w cache = (e, {| store := ∅; history := [Flushed true] |}).
Proof.
  intros Hflush Hfm. unfold V2.main, clearCache, FlushAll, NewClient. simpl.
  by rewrite Hflush, Hfm.
Qed.

Lemma V2_main_fetch_failure_witness :
  V2.main key_order (constant_world GetFails) {["old"%string := JNull]}
  = (Fatal "Failed to call the Bnet manifest: %v" (Some GetError),
     {| store := ∅; history := [Flushed true] |}).
Proof.
  apply (V2_main_fetch_failure key_order (constant_world GetFails)
           {["old"%string := JNull]}); reflexivity.
Defined.

(** * Further properties of the cache writer *)

Lemma V2_save_entries_events (w : World) (client : Redis)
    (entries : list (string * V2.ManifestObject)) :
  history (V2.save_entries w client entries).2
  = history client ++ (set_event w <$> entries).
Proof.
  revert client. induction entries as [|[key value] entries IH]; intros client.
  - simpl. by rewrite app_nil_r.
  - cbn [V2.save_entries V2.Marshal].
    assert (history (Set_ w client key
                       (Bytes (V2.encode_ManifestObject value))).2
            = history client ++ [set_event w (key, value)]) as Hset.
    { unfold Set_, set_event. simpl. by destruct (set_fails w key). }
    destruct (Set_ w client key _) as [cmd client']. simpl in Hset.
    by rewrite IH, Hset, fmap_cons, <- app_assoc.
Qed.

(** X12. [saveToRedis] (lines 265-279) issues exactly one SET per entry of the
    dictionary and nothing else, in the order of the range, and returns a nil
    error; for the empty dictionary it issues no command at all. *)
Theorem V2_saveToRedis_one_set_per_entry (o : RangeOrder) (w : World)
    (client : Redis) (data : V2.ManifestResponse) :
  (V2.saveToRedis o w client data).1 = None ∧
  ∃ entries,
    entries ≡ₚ map_to_list data ∧
    history (V2.saveToRedis o w client data).2
    = history client ++ (set_event w <$> entries) ∧
    length entries = size data ∧
    (data = ∅ → history (V2.saveToRedis o w client data).2 = history client).
Proof.
  split; [apply V2_save_entries_nil_error|].
  exists (range o data). unfold V2.saveToRedis.
  split; [apply range_perm|]. split; [apply V2_save_entries_events|].
  split.
  - by rewrite (range_perm o _ data), length_map_to_list.
  - intros ->. rewrite V2_save_entries_events.
    assert (range o (∅ : V2.ManifestResponse) = []) as ->; [|by rewrite app_nil_r].
    apply Permutation_nil_r. by rewrite range_perm, map_to_list_empty.
Qed.

Lemma V2_saveToRedis_one_set_per_entry_witness :
  history (V2.saveToRedis key_order refusing_world (NewClient ∅) ∅).2
  = history (NewClient ∅).
Proof.
  destruct (proj2 (V2_saveToRedis_one_set_per_entry key_order refusing_world
                     (NewClient ∅) ∅)) as (entries & _ & _ & _ & Hempty).
  apply Hempty. reflexivity.
Defined.

(** X13. When no SET of an entry fails, the keyspace after [saveToRedis]
    (lines 265-279) holds the JSON object of every record of the dictionary
    under its key, laid over what the keyspace held before; the order of the
    range does not matter. *)
Theorem V2_saveToRedis_keyspace (o : RangeOrder) (w : World) (client : Redis)
    (data : V2.ManifestResponse) :
  (∀ k, is_Some (data !! k) → set_fails w k = false) →
  store (V2.saveToRedis o w client data).2
  = (V2.encode_ManifestObject <$> data) ∪ store client.
Proof.
  intros Hok. apply map_eq. intros k.
  rewrite V2_saveToRedis_store, lookup_union, lookup_fmap.
  destruct (data !! k) as [value|] eqn:Hk; simpl.
  - rewrite (Hok k) by (by rewrite Hk). by destruct (store client !! k).
  - by destruct (store client !! k).
Qed.

Lemma V2_saveToRedis_keyspace_witness :
  store (V2.saveToRedis reverse_key_order working_world
           (NewClient {["old"%string := JNull]}) {["4"%string := raid]}).2
  = (V2.encode_ManifestObject <$> {["4"%string := raid]})
    ∪ {["old"%string := JNull]}.
Proof.
  exact (V2_saveToRedis_keyspace reverse_key_order working_world
           (NewClient {["old"%string := JNull]}) {["4"%string := raid]}
           (λ k _, eq_refl)).
Defined.

(** X14. A SET that fails leaves its key as it was, and the other entries are
    written all the same: [saveToRedis] (lines 265-279) goes on after a
    failure. *)
Theorem V2_saveToRedis_goes_on (o : RangeOrder) (w : World) (client : Redis)
    (data : V2.ManifestResponse) (bad good : string) (value : V2.ManifestObject) :
  set_fails w bad = true →
  set_fails w good = false →
  data !! good = Some value →
  store (V2.saveToRedis o w client data).2 !! bad = store client !! bad ∧
  store (V2.saveToRedis o w client data).2 !! good
  = Some (V2.encode_ManifestObject value).
Proof.
  intros Hbad Hgood Hdata. rewrite !V2_saveToRedis_store, Hbad, Hgood, Hdata.
  split; [by destruct (data !! bad) | done].
Qed.

Lemma V2_saveToRedis_goes_on_witness :
  store (V2.saveToRedis key_order refusing_world (NewClient ∅)
           (<["1"%string := raid]> {["4"%string := raid]})).2 !! "1"%string
  = (∅ : gmap string json) !! "1"%string ∧
  store (V2.saveToRedis key_order refusing_world (NewClient ∅)
           (<["1"%string := raid]> {["4"%string := raid]})).2 !! "4"%string
  = Some (V2.encode_ManifestObject raid).
Proof.
  apply (V2_saveToRedis_goes_on key_order refusing_world (NewClient ∅)
           (<["1"%string := raid]> {["4"%string := raid]})
           "1"%string "4"%string raid); reflexivity.
Defined.

Lemma V2_cache_entry_decodes_witness :
  ∃ payload,
    store (V2.saveToRedis key_order working_world (NewClient ∅)
             {["4"%string := raid]}).2 !! "4"%string = Some payload ∧
    V2.Unmarshal payload = Ok raid.
Proof.
  apply (V2_cache_entry_decodes key_order working_world (NewClient ∅)
           {["4"%string := raid]} "4"%string raid);
    [reflexivity | reflexivity | split; reflexivity | repeat split; reflexivity].
Defined.

(** X16. A run of [main] (lines 294-336) in which the flush and every SET go
    through finishes, and the cache then holds exactly the JSON objects of the
    merged dictionary: nothing of the previous contents is left. *)
Theorem V2_main_replaces_cache (o : RangeOrder) (w : World)
    (cache : gmap string json) (data : V2.ManifestResponse) :
  flush_fails w = false →
  V2.fetch_and_merge o w = Next data →
  (∀ k, is_Some (data !! k) → set_fails w k = false) →
  (V2.main o w cache).1 = Finished ∧
  store (V2.main o w cache).2 = V2.encode_ManifestObject <$> data.
Proof.
  intros Hflush Hfm Hok. split.
  - unfold V2.main, clearCache, FlushAll, NewClient. simpl.
    rewrite Hflush, Hfm. by destruct (V2.saveToRedis o w _ data).
  - apply map_eq. intros k. rewrite V2_main_store, Hfm, lookup_fmap by done.
    destruct (data !! k) as [value|] eqn:Hk; [|done].
    by rewrite (Hok k) by (by rewrite Hk).
Qed.

Lemma V2_main_replaces_cache_witness :
  (V2.main key_order working_world {["old"%string := JNull]}).1 = Finished ∧
  store (V2.main key_order working_world {["old"%string := JNull]}).2
  = V2.encode_ManifestObject <$> {["1"%string := V2.zero_ManifestObject]}.
Proof.
  apply (V2_main_replaces_cache key_order working_world
           {["old"%string := JNull]} {["1"%string := V2.zero_ManifestObject]}).
  - reflexivity.
  - vm_compute. reflexivity.
  - intros k _. reflexivity.
Defined.

(** X17. [saveToRedis] of lines 456-464 returns nil without issuing a command
    when the dictionary is empty.  For any other dictionary it stops at the
    first entry of the range: the SET of that key is refused by the client,
    the pointer returned by [client.Set] is not nil, and [log.Panicf] ends the
    run; nothing is written. *)
Theorem V3_saveToRedis_outcome (o : RangeOrder) (w : World) (client : Redis)
    (data : V3.ManifestResponse) :
  (data = ∅ → V3.saveToRedis o w client data = (Next None, client)) ∧
  (data ≠ ∅ →
   ∃ key,
     is_Some (data !! key) ∧
     V3.saveToRedis o w client data =
       (Halt (Panicked
                "Something happened when saving to Redis key [%s] and value [%v]"
                key),
        {| store := store client;
           history := history client ++ [SetKey key false] |})).
Proof.
  unfold V3.saveToRedis. split.
  - intros ->.
    assert (range o (∅ : V3.ManifestResponse) = []) as ->; [|done].
    apply Permutation_nil_r. by rewrite range_perm, map_to_list_empty.
  - intros Hne. destruct (range o data) as [|[key value] rest] eqn:Hrange.
    + exfalso. apply Hne. apply map_to_list_empty_iff. apply Permutation_nil_r.
      by rewrite <- (range_perm o _ data), Hrange.
    + exists key. split; [|done]. exists value.
      apply elem_of_map_to_list. rewrite <- (range_perm o _ data), Hrange.
      apply list_elem_of_here.
Qed.

Lemma V3_saveToRedis_outcome_witness :
  V3.saveToRedis key_order working_world (NewClient ∅) ∅
  = (Next None, NewClient ∅).
Proof.
  apply (proj1 (V3_saveToRedis_outcome key_order working_world (NewClient ∅) ∅)).
  reflexivity.
Defined.

(** X18. A run of [main] of lines 478-521 whose flush goes through never
    leaves an entry in the cache: either it stops before the writer, or the
    merged dictionary is empty, or the writer panics at its first SET. *)
Theorem V3_main_leaves_cache_empty (o : RangeOrder) (w : World)
    (cache : gmap string json) :
  flush_fails w = false →
  store (V3.main o w cache).2 = ∅.
Proof.
  intros Hflush. unfold V3.main, clearCache, FlushAll, NewClient. simpl.
  rewrite Hflush. destruct (V3.fetch_and_merge o w) as [data|e]; [|done].
  unfold V3.saveToRedis. by destruct (range o data) as [|[key value] rest].
Qed.

Lemma V3_main_leaves_cache_empty_witness :
  store (V3.main key_order modeless_world {["old"%string := JNull]}).2 = ∅.
Proof.
  apply (V3_main_leaves_cache_empty key_order modeless_world
           {["old"%string := JNull]}).
  reflexivity.
Defined.

(** * Further properties of the decoding and of the fetchers *)

Section DictionaryFacts.
Context {T : Type} (zero : T) (decode : T → json → option T).

Lemma decode_map_snoc (cur : gmap string T) (members : list (string * json))
    (key : string) (value : json) :
  decode_map zero decode cur (JObject (members ++ [(key, value)]))
  = match decode_map zero decode cur (JObject members) with
    | Some m =>
      match decode zero value with
      | Some elem => Some (<[key := elem]> m)
      | None => None
      end
    | None => None
    end.
Proof. unfold decode_map. by rewrite foldl_app. Qed.

Lemma decode_map_bad_member (cur : gmap string T)
    (members : list (string * json)) (key : string) (value : json) :
  (key, value) ∈ members → decode zero value = None →
  decode_map zero decode cur (JObject members) = None.
Proof.
  intros Hin Hbad. revert cur.
  induction members as [|[k0 v0] members IH]; intros cur.
  - by apply elem_of_nil in Hin.
  - unfold decode_map in *. simpl.
    apply elem_of_cons in Hin as [[= <- <-] | Hin].
    + rewrite Hbad. apply decode_map_failed.
    + destruct (decode zero v0) as [elem|]; [by apply IH | apply decode_map_failed].
Qed.

Lemma decode_map_dom (cur d : gmap string T) (members : list (string * json)) :
  decode_map zero decode cur (JObject members) = Some d →
  dom d = dom cur ∪ list_to_set members.*1.
Proof.
  revert d. induction members as [|[key value] members IH] using rev_ind;
    intros d.
  - intros [= <-]. simpl. by rewrite (right_id_L ∅ (∪)).
  - rewrite decode_map_snoc.
    destruct (decode_map zero decode cur (JObject members)) as [m|]; [|done].
    destruct (decode zero value) as [elem|]; [|done]. intros [= <-].
    rewrite dom_insert_L, (IH m eq_refl), fmap_app, list_to_set_app_L. simpl.
    rewrite (right_id_L ∅ (∪)), (comm_L (∪) {[key]}). by rewrite (assoc_L (∪)).
Qed.

Lemma decode_map_last (cur d : gmap string T) (members : list (string * json))
    (pre post : list (string * json)) (key : string) (value : json) :
  decode_map zero decode cur (JObject members) = Some d →
  members = pre ++ (key, value) :: post →
  key ∉ post.*1 →
  d !! key = decode zero value.
Proof.
  revert d members. induction post as [|[k v] post IH] using rev_ind;
    intros d members Hd -> Hkey.
  - rewrite decode_map_snoc in Hd.
    destruct (decode_map zero decode cur (JObject pre)) as [m|]; [|done].
    destruct (decode zero value) as [elem|]; [|done].
    injection Hd as <-. by rewrite lookup_insert_eq.
  - rewrite app_comm_cons, app_assoc, decode_map_snoc in Hd.
    destruct (decode_map zero decode cur (JObject (pre ++ (key, value) :: post)))
      as [m|] eqn:Hm; [|done].
    destruct (decode zero v) as [elem|]; [|done]. injection Hd as <-.
    rewrite fmap_app in Hkey. rewrite lookup_insert_ne.
    + apply (IH m _ Hm eq_refl). intros Hin. apply Hkey, elem_of_app. by left.
    + intros ->. apply Hkey, elem_of_app. right. apply list_elem_of_here.
Qed.

(** X19. The fetch is all or nothing: if one entry of the payload cannot be
    stored in a [ManifestObject] (a member of the wrong JSON type, a number
    that is no [int]), the fetcher returns the unmarshal error and no
    dictionary, whatever the other entries are. *)
Theorem fetch_rejects_ill_typed_entry (w : World) (url : string)
    (members : list (string * json)) (key : string) (value : json) :
  http_get w url = Body (Some (JObject members)) →
  (key, value) ∈ members →
  decode zero value = None →
  fetch_dictionary zero decode w url
  = Err (Errorf "failed to unmarshal JSON: %w" [] UnmarshalError).
Proof.
  intros Hget Hin Hbad. unfold fetch_dictionary.
  by rewrite Hget, (decode_map_bad_member ∅ members key value).
Qed.

(** X20. The dictionary a fetch returns has exactly the member names of the
    payload object as its keys, and for a name that occurs more than once the
    record decoded from its last member. *)
Theorem fetch_keys_and_repeats (w : World) (url : string)
    (members : list (string * json)) (d : gmap string T) :
  fetch_dictionary zero decode w url = Ok d →
  http_get w url = Body (Some (JObject members)) →
  dom d = list_to_set members.*1 ∧
  ∀ pre key value post,
    members = pre ++ (key, value) :: post →
    key ∉ post.*1 →
    d !! key = decode zero value.
Proof.
  intros (payload & Hget & Hd)%fetch_dictionary_Ok Hbody.
  rewrite Hbody in Hget. injection Hget as <-. split.
  - rewrite (decode_map_dom _ _ _ Hd), dom_empty_L. apply (left_id_L ∅ (∪)).
  - intros pre key value post Hsplit Hkey.
    by apply (decode_map_last _ _ _ _ _ _ _ Hd Hsplit).
Qed.

End DictionaryFacts.

Lemma fetch_rejects_ill_typed_entry_witness :
  V2.fetchManifestEntities (constant_world (Body (Some ill_typed_body)))
    "https://example.test/x"
  = Err (Errorf "failed to unmarshal JSON: %w" [] UnmarshalError).
Proof.
  apply (fetch_rejects_ill_typed_entry V2.zero_ManifestObject
           V2.decode_ManifestObject
           (constant_world (Body (Some ill_typed_body)))
           "https://example.test/x"
           [("1"%string, JObject [("directActivityModeType"%string, JString "4")]);
            ("2"%string, JObject [])]
           "1"%string (JObject [("directActivityModeType"%string, JString "4")])).
  - reflexivity.
  - apply list_elem_of_here.
  - reflexivity.
Defined.

Lemma fetch_keys_and_repeats_witness :
  ∃ d : V2.ManifestResponse,
    V2.fetchManifestEntities (constant_world (Body (Some repeated_key_body)))
      "https://example.test/x" = Ok d ∧
    d !! "1"%string
    = V2.decode_ManifestObject V2.zero_ManifestObject
        (JObject [("directActivityModeType"%string, JInt 7)]).
Proof.
  eexists. split; [vm_compute; reflexivity|].
  refine (proj2 (fetch_keys_and_repeats V2.zero_ManifestObject
                   V2.decode_ManifestObject
                   (constant_world (Body (Some repeated_key_body)))
                   "https://example.test/x" _ _ _ _)
            [("1"%string, JObject [("directActivityModeType"%string, JInt 4)])]
            "1"%string (JObject [("directActivityModeType"%string, JInt 7)]) []
            _ _).
  - vm_compute. reflexivity.
  - reflexivity.
  - reflexivity.
  - intros Hin. inversion Hin.
Defined.

Section StructFacts.
Context {F T : Type} (fields : list (string * F))
  (store_field : T → F → json → option T).

Lemma decode_struct_failed (members : list (string * json)) :
  foldl (λ acc '(key, value),
           match acc with
           | None => None
           | Some d =>
             match find_field fields key with
             | Some f => store_field d f value
             | None => Some d
             end
           end) (None : option T) members = None.
Proof. induction members as [|[key value] members IH]; [done | apply IH]. Qed.

Lemma decode_struct_cons (cur : T) (key : string) (value : json)
    (members : list (string * json)) :
  decode_struct fields store_field cur (JObject ((key, value) :: members))
  = match find_field fields key with
    | Some f =>
      match store_field cur f value with
      | Some d => decode_struct fields store_field d (JObject members)
      | None => None
      end
    | None => decode_struct fields store_field cur (JObject members)
    end.
Proof.
  unfold decode_struct. simpl. destruct (find_field fields key) as [f|]; [|done].
  destruct (store_field cur f value); [done | apply decode_struct_failed].
Qed.

(** Whatever holds of the current value and is kept by storing any of the
    fields that the members match, holds of the decoded value. *)
Lemma decode_struct_invariant (P : T → Prop) (allowed : F → Prop)
    (members : list (string * json)) (cur d : T) :
  (∀ d f value d', allowed f → P d → store_field d f value = Some d' → P d') →
  (∀ key f, key ∈ members.*1 → find_field fields key = Some f → allowed f) →
  P cur →
  decode_struct fields store_field cur (JObject members) = Some d →
  P d.
Proof.
  intros Hstep. revert cur.
  induction members as [|[key value] members IH]; intros cur Hallowed Hcur.
  - by intros [= <-].
  - rewrite decode_struct_cons.
    assert (∀ key' f, key' ∈ members.*1 → find_field fields key' = Some f
                      → allowed f) as Hrest.
    { intros key' f Hin. apply Hallowed. rewrite fmap_cons. by apply elem_of_cons; right. }
    destruct (find_field fields key) as [f|] eqn:Hf; [|by apply IH].
    destruct (store_field cur f value) as [d'|] eqn:Hd'; [|done].
    apply IH; [done|]. apply (Hstep cur f value); [|done..].
    apply (Hallowed key); [|done]. rewrite fmap_cons. apply list_elem_of_here.
Qed.

(** X21. A member whose name matches no field of the struct is skipped: the
    decoded value is the same with and without it, wherever it stands in the
    payload object. *)
Theorem decode_struct_skips_unknown (cur : T) (pre post : list (string * json))
    (key : string) (value : json) :
  find_field fields key = None →
  decode_struct fields store_field cur (JObject (pre ++ (key, value) :: post))
  = decode_struct fields store_field cur (JObject (pre ++ post)).
Proof.
  intros Hkey. unfold decode_struct. rewrite !foldl_app. simpl. rewrite Hkey.
  by destruct (foldl _ (Some cur) pre).
Qed.

End StructFacts.

Lemma decode_struct_skips_unknown_witness :
  V2.decode_ManifestObject V2.zero_ManifestObject
    (JObject ([("directActivityModeType"%string, JInt 4)]
              ++ ("hash"%string, JInt 42) :: [("releaseTime"%string, JInt 7)]))
  = V2.decode_ManifestObject V2.zero_ManifestObject
      (JObject ([("directActivityModeType"%string, JInt 4)]
                ++ [("releaseTime"%string, JInt 7)])).
Proof.
  apply (decode_struct_skips_unknown V2.ManifestObject_fields
           V2.store_ManifestObject V2.zero_ManifestObject
           [("directActivityModeType"%string, JInt 4)]
           [("releaseTime"%string, JInt 7)] "hash"%string (JInt 42)).
  reflexivity.
Defined.

Lemma V2_store_keeps_mode (d d' : V2.ManifestObject)
    (f : V2.ManifestObject_field) (value : json) :
  f ≠ V2.F_directActivityModeType →
  V2.store_ManifestObject d f value = Some d' → V2.Mode d' = V2.Mode d.
Proof.
  intros Hf. destruct f; [done|..]; simpl.
  - destruct (decode_DisplayProperties _ value); [|done]. by intros [= <-].
  - destruct (decode_DisplayProperties _ value); [|done]. by intros [= <-].
  - destruct (decode_string _ value); [|done]. by intros [= <-].
  - destruct (decode_int _ value); [|done]. by intros [= <-].
Qed.

Lemma V1_store_keeps_mode (d d' : V1.ManifestObject)
    (f : V1.ManifestObject_field) (value : json) :
  f ≠ V1.F_mode →
  V1.store_ManifestObject d f value = Some d' → V1.Mode d' = V1.Mode d.
Proof.
  intros Hf. destruct f; [done|..]; simpl.
  - destruct (decode_DisplayProperties _ value); [|done]. by intros [= <-].
  - destruct (decode_DisplayProperties _ value); [|done]. by intros [= <-].
  - destruct (decode_string _ value); [|done]. by intros [= <-].
  - destruct (decode_int _ value); [|done]. by intros [= <-].
Qed.

(** X22. In the revision of lines 138-336 an entity whose payload has no
    member matching [directActivityModeType] is decoded with mode 0, and
    [filterActivities] drops it from every dictionary that holds it. *)
Theorem V2_entry_without_mode_dropped (members : list (string * json))
    (d : V2.ManifestObject) :
  V2.decode_ManifestObject V2.zero_ManifestObject (JObject members) = Some d →
  (∀ key, key ∈ members.*1 →
     find_field V2.ManifestObject_fields key ≠ Some V2.F_directActivityModeType) →
  V2.Mode d = 0%Z ∧
  ∀ (o : RangeOrder) (D : V2.ManifestResponse) (k : string),
    D !! k = Some d → V2.filterActivities o D !! k = None.
Proof.
  intros Hd Hkeys.
  assert (V2.Mode d = 0%Z) as Hmode.
  { apply (decode_struct_invariant V2.ManifestObject_fields
             V2.store_ManifestObject (λ d, V2.Mode d = 0%Z)
             (λ f, f ≠ V2.F_directActivityModeType)
             members V2.zero_ManifestObject d); [| |done|done].
    - intros d0 f value d' Hf Hd0 Hst.
      by rewrite (V2_store_keeps_mode d0 d' f value Hf Hst).
    - intros key f Hin Hfind ->. by apply (Hkeys key Hin). }
  split; [done|]. intros o D k HD.
  destruct (V2.filterActivities o D !! k) as [d'|] eqn:Hf; [|done].
  apply V2_filterActivities_Some in Hf as [HD' Hm]. congruence.
Qed.

Lemma V2_entry_without_mode_dropped_witness :
  V2.Mode V2.zero_ManifestObject = 0%Z ∧
  ∀ (o : RangeOrder) (D : V2.ManifestResponse) (k : string),
    D !! k = Some V2.zero_ManifestObject → V2.filterActivities o D !! k = None.
Proof.
  apply (V2_entry_without_mode_dropped [("mode"%string, JInt 4)]
           V2.zero_ManifestObject).
  - reflexivity.
  - intros key [-> | Hin]%elem_of_cons; [discriminate | inversion Hin].
Defined.

(** X23. In the revision of lines 338-521 an entity whose payload has no
    member matching [mode] is decoded with a nil mode, and [filterActivities]
    drops it from every dictionary that holds it. *)
Theorem V3_entry_without_mode_dropped (members : list (string * json))
    (d : V3.ManifestObject) :
  V1.decode_ManifestObject V1.zero_ManifestObject (JObject members) = Some d →
  (∀ key, key ∈ members.*1 →
     find_field V1.ManifestObject_fields key ≠ Some V1.F_mode) →
  V1.Mode d = None ∧
  ∀ (o : RangeOrder) (D : V3.ManifestResponse) (k : string),
    D !! k = Some d → V3.filterActivities o D !! k = None.
Proof.
  intros Hd Hkeys.
  assert (V1.Mode d = None) as Hmode.
  { apply (decode_struct_invariant V1.ManifestObject_fields
             V1.store_ManifestObject (λ d, V1.Mode d = None)
             (λ f, f ≠ V1.F_mode)
             members V1.zero_ManifestObject d); [| |done|done].
    - intros d0 f value d' Hf Hd0 Hst.
      by rewrite (V1_store_keeps_mode d0 d' f value Hf Hst).
    - intros key f Hin Hfind ->. by apply (Hkeys key Hin). }
  split; [done|]. intros o D k HD.
  destruct (V3.filterActivities o D !! k) as [d'|] eqn:Hf; [|done].
  apply V3_filterActivities_Some in Hf as [HD' Hm]. congruence.
Qed.

Lemma V3_entry_without_mode_dropped_witness :
  V1.Mode V1.zero_ManifestObject = None ∧
  ∀ (o : RangeOrder) (D : V3.ManifestResponse) (k : string),
    D !! k = Some V1.zero_ManifestObject → V3.filterActivities o D !! k = None.
Proof.
  apply (V3_entry_without_mode_dropped
           [("directActivityModeType"%string, JInt 3)] V1.zero_ManifestObject).
  - reflexivity.
  - intros key [-> | Hin]%elem_of_cons; [discriminate | inversion Hin].
Defined.

(** X24. [fetchManifest] on a body of the expected shape returns the manifest
    that holds the four paths of the body, each in its own field. *)
Theorem fetchManifest_reads_paths (unmarshal_msg : string) (w : World)
    (url activity class gender race : string) :
  http_get w url = Body (Some (manifest_doc activity class gender race)) →
  fetchManifest unmarshal_msg w url
  = Next (Ok (manifest_of activity class gender race)).
Proof. intros Hget. unfold fetchManifest. by rewrite Hget. Qed.

Lemma fetchManifest_reads_paths_witness :
  fetchManifest "Failed to unmarshal JSON: %v" modeless_world
    "https://www.bungie.net/Platform/Destiny2/Manifest"
  = Next (Ok (manifest_of "/activity" "/class" "/gender" "/race")).
Proof.
  apply (fetchManifest_reads_paths "Failed to unmarshal JSON: %v" modeless_world
           "https://www.bungie.net/Platform/Destiny2/Manifest"
           "/activity" "/class" "/gender" "/race").
  reflexivity.
Defined.

Lemma decode_struct_all_unknown {F T : Type} (fields : list (string * F))
    (store_field : T → F → json → option T) (cur : T)
    (members : list (string * json)) :
  (∀ key, key ∈ members.*1 → find_field fields key = None) →
  decode_struct fields store_field cur (JObject members) = Some cur.
Proof.
  induction members as [|[key value] members IH]; intros Hkeys; [done|].
  rewrite decode_struct_cons, (Hkeys key).
  - apply IH. intros key' Hin. apply Hkeys. rewrite fmap_cons.
    by apply elem_of_cons; right.
  - rewrite fmap_cons. apply list_elem_of_here.
Qed.

(** X25. [fetchManifest] does not check that the body is a manifest: for any
    JSON object without a member matching [Response] (an error envelope of
    the API, say) it returns the zero [Manifest] and no error, and the URL
    that [main] then builds for each of the four dictionaries is [baseUrl]
    alone. *)
Theorem fetchManifest_accepts_any_object (unmarshal_msg : string) (w : World)
    (url : string) (members : list (string * json)) :
  http_get w url = Body (Some (JObject members)) →
  (∀ key, key ∈ members.*1 → find_field [("Response"%string, ())] key = None) →
  fetchManifest unmarshal_msg w url = Next (Ok zero_Manifest) ∧
  V2.raceUrl zero_Manifest = V2.baseUrl ∧
  V2.classUrl zero_Manifest = V2.baseUrl ∧
  V2.genderUrl zero_Manifest = V2.baseUrl ∧
  V2.activityUrl zero_Manifest = V2.baseUrl.
Proof.
  intros Hget Hkeys. split; [|done]. unfold fetchManifest. rewrite Hget.
  unfold decode_Manifest. by rewrite decode_struct_all_unknown.
Qed.

Lemma fetchManifest_accepts_any_object_witness :
  fetchManifest "Failed to unmarshal JSON while fetching manifest: %v"
    (constant_world (Body (Some (JObject [("ErrorCode"%string, JInt 5)]))))
    "https://www.bungie.net/Platform/Destiny2/Manifest"
  = Next (Ok zero_Manifest).
Proof.
  apply (fetchManifest_accepts_any_object
           "Failed to unmarshal JSON while fetching manifest: %v"
           (constant_world (Body (Some (JObject [("ErrorCode"%string, JInt 5)]))))
           "https://www.bungie.net/Platform/Destiny2/Manifest"
           [("ErrorCode"%string, JInt 5)]).
  - reflexivity.
  - intros key [-> | Hin]%elem_of_cons; [reflexivity | inversion Hin].
Defined.
